(** * HTTP to EMS Bridge: the Python client library and its command-line tools

  A shallow embedding of [src/Python/http_to_ems_client.py] and of the
  four scripts [ems_send.py], [publish.py], [request_reply.py] and
  [get_stats.py], followed by the properties of the wrapper's contract.

  Conventions.
  - A Python [str] is a [string] holding its UTF-8 bytes.
  - A Python [int] is a [Z]; a timeout in seconds (a float that the code
    only passes along) is a [Q].
  - A [dict] of header names to header values is a [gmap string string].
  - Exceptions are values of [exn]; a computation that may raise returns a
    [result]; code with effects (HTTP traffic, files, the standard streams)
    runs in the monad [M], which threads a [world] and logs every effect
    in its [trace]. *)

From Stdlib Require Import ZArith NArith QArith List String Ascii Bool Lia.
From stdpp Require Import base option gmap strings pretty.

Set Warnings "-register-all".

Open Scope string_scope.
Open Scope Z_scope.
Import ListNotations.

(** ** Python strings *)

Module PyStr.

Definition dquote : ascii := Ascii.ascii_of_nat 34.
Definition backslash : ascii := Ascii.ascii_of_nat 92.

(** [s.startswith(p)], returning what follows the prefix. *)
Fixpoint strip_prefix (p s : string) : option string :=
  match p with
  | EmptyString => Some s
  | String a p' =>
      match s with
      | EmptyString => None
      | String b s' => if Ascii.eqb a b then strip_prefix p' s' else None
      end
  end.

(** [needle in hay] on strings. *)
Fixpoint contains (needle hay : string) : bool :=
  match strip_prefix needle hay with
  | Some _ => true
  | None =>
      match hay with
      | EmptyString => false
      | String _ hay' => contains needle hay'
      end
  end.

(** [s.rstrip("/")]. *)
Fixpoint rstrip_slash (s : string) : string :=
  match s with
  | EmptyString => EmptyString
  | String c r =>
      let r' := rstrip_slash r in
      if Ascii.eqb c "/" && String.eqb r' EmptyString then EmptyString
      else String c r'
  end.

(** Truth value of a string: only the empty string is falsy. *)
Definition truthy (s : string) : bool := negb (String.eqb s EmptyString).

(** Truth value of an [Optional[str]]: [None] and the empty string are
    falsy. *)
Definition truthy_opt (o : option string) : bool :=
  match o with
  | Some s => truthy s
  | None => false
  end.

Definition lower_ascii (c : ascii) : ascii :=
  let n := Ascii.N_of_ascii c in
  if ((65 <=? n) && (n <=? 90))%N then Ascii.ascii_of_N (n + 32) else c.

(** [s.lower()] on the ASCII letters, which is all a header name has. *)
Fixpoint lower (s : string) : string :=
  match s with
  | EmptyString => EmptyString
  | String c r => String (lower_ascii c) (lower r)
  end.

End PyStr.

(** ** The [json] module of the Python standard library

  [json.loads] is what [send] and [Response.json] use to decode a body.
  The decoder below follows [json.decoder] and [json.scanner]: the
  whitespace set, the order of the alternatives in [scan_once], the
  number pattern, strict strings, and the non-standard constants [NaN],
  [Infinity] and [-Infinity] that Python accepts.  Besides
  [json.JSONDecodeError] the decoder raises two exceptions that come from
  the interpreter: [ValueError] when an integer literal has more digits than
  [int] converts, and [RecursionError] when arrays and objects are nested
  deeper than the interpreter lets the scanner recurse.  The two limits
  are the [limits] under which the decoder runs. *)

Module Json.

Import PyStr.

(** A decoded document.  An integer literal becomes a Python [int]; a
    literal with a fraction or an exponent becomes a [float], kept here as
    the exact decimal [m * 10^e] it was written as.  An object keeps its
    members in source order; [dict_get] gives them the meaning of the
    [dict] Python builds from them (the last duplicate wins). *)
Inductive json : Type :=
| JNull
| JBool (b : bool)
| JInt (n : Z)
| JFloat (m e : Z)
| JNaN
| JInfinity (negative : bool)
| JString (s : string)
| JArray (items : list json)
| JObject (members : list (string * json)).

(** [d.get(k)] on the dict built from the members. *)
Fixpoint dict_get (k : string) (members : list (string * json)) : option json :=
  match members with
  | [] => None
  | (k', v) :: rest =>
      match dict_get k rest with
      | Some v' => Some v'
      | None => if String.eqb k k' then Some v else None
      end
  end.

(** [float(lexeme) == 0.0]: the literal is zero, or it is so small that
    it rounds to zero in binary64 (at most half the least subnormal,
    2^-1075, ties going to the even neighbour, which is zero). *)
Definition float_is_zero (m e : Z) : bool :=
  (m =? 0) || ((e <? 0) && (Z.abs m * 2 ^ 1075 <=? 10 ^ (- e))).

(** Python's truth value of a decoded document. *)
Definition truthy (v : json) : bool :=
  match v with
  | JNull => false
  | JBool b => b
  | JInt n => negb (n =? 0)
  | JFloat m e => negb (float_is_zero m e)
  | JNaN => true
  | JInfinity _ => true
  | JString s => PyStr.truthy s
  | JArray items => match items with [] => false | _ => true end
  | JObject members => match members with [] => false | _ => true end
  end.

(** [type(v).__name__]. *)
Definition type_name (v : json) : string :=
  match v with
  | JNull => "NoneType"
  | JBool _ => "bool"
  | JInt _ => "int"
  | JFloat _ _ | JNaN | JInfinity _ => "float"
  | JString _ => "str"
  | JArray _ => "list"
  | JObject _ => "dict"
  end.

(** The limits of the interpreter that the decoder can meet.
    [max_str_digits] is [sys.get_int_max_str_digits()]: 4300 by default,
    0 when the limit is switched off or the interpreter has none.
    [max_nesting] is the number of arrays and objects, one inside the
    other, that the scanner can enter at the point of the call before the
    recursion limit is reached. *)
Record limits : Type := {
  max_str_digits : nat;
  max_nesting : nat
}.

(** *** Lexical helpers *)

Definition is_ws (c : ascii) : bool :=
  Ascii.eqb c " " || Ascii.eqb c (Ascii.ascii_of_nat 9)
  || Ascii.eqb c (Ascii.ascii_of_nat 10) || Ascii.eqb c (Ascii.ascii_of_nat 13).

(** [WHITESPACE.match(s, idx).end()]: skip spaces, tabs, line feeds and
    carriage returns. *)
Fixpoint skip_ws (s : string) : string :=
  match s with
  | String c r => if is_ws c then skip_ws r else s
  | EmptyString => EmptyString
  end.

Definition digit_val (c : ascii) : option Z :=
  let n := Z.of_N (Ascii.N_of_ascii c) in
  if (48 <=? n) && (n <=? 57) then Some (n - 48) else None.

Definition hex_val (c : ascii) : option N :=
  let n := Ascii.N_of_ascii c in
  if ((48 <=? n) && (n <=? 57))%N then Some (n - 48)%N
  else if ((65 <=? n) && (n <=? 70))%N then Some (n - 55)%N
  else if ((97 <=? n) && (n <=? 102))%N then Some (n - 87)%N
  else None.

(** The four hexadecimal digits of a [\uXXXX] escape. *)
Definition hex4 (a b c d : ascii) : option N :=
  match hex_val a, hex_val b, hex_val c, hex_val d with
  | Some x, Some y, Some z, Some w => Some (((x * 16 + y) * 16 + z) * 16 + w)%N
  | _, _, _, _ => None
  end.

Definition byte (n : N) : ascii := Ascii.ascii_of_N n.

(** [chr(cp)] in UTF-8.  A lone surrogate, which a Python [str] can hold,
    gets the three-byte form of its code point. *)
Definition utf8 (cp : N) : string :=
  (if cp <? 128 then String (byte cp) EmptyString
   else if cp <? 2048 then
     String (byte (192 + cp / 64)) (String (byte (128 + cp mod 64)) EmptyString)
   else if cp <? 65536 then
     String (byte (224 + cp / 4096))
       (String (byte (128 + (cp / 64) mod 64))
          (String (byte (128 + cp mod 64)) EmptyString))
   else
     String (byte (240 + cp / 262144))
       (String (byte (128 + (cp / 4096) mod 64))
          (String (byte (128 + (cp / 64) mod 64))
             (String (byte (128 + cp mod 64)) EmptyString))))%N.

Definition is_high_surrogate (u : N) : bool := ((55296 <=? u) && (u <=? 56319))%N.
Definition is_low_surrogate (u : N) : bool := ((56320 <=? u) && (u <=? 57343))%N.

(** The characters that follow a backslash other than [u]. *)
Definition simple_escape (c : ascii) : option ascii :=
  if Ascii.eqb c dquote then Some dquote
  else if Ascii.eqb c backslash then Some backslash
  else if Ascii.eqb c "/" then Some "/"%char
  else if Ascii.eqb c "b" then Some (Ascii.ascii_of_nat 8)
  else if Ascii.eqb c "f" then Some (Ascii.ascii_of_nat 12)
  else if Ascii.eqb c "n" then Some (Ascii.ascii_of_nat 10)
  else if Ascii.eqb c "r" then Some (Ascii.ascii_of_nat 13)
  else if Ascii.eqb c "t" then Some (Ascii.ascii_of_nat 9)
  else None.

Definition prepend (p : string) (r : option (string * string)) : option (string * string) :=
  match r with
  | Some (str, rest) => Some (p ++ str, rest)
  | None => None
  end.

(** After a high surrogate [\uXXXX]: when another [\u] escape follows it
    is decoded (an invalid one is an error); a low surrogate completes
    the pair.  [Some (Some (cp, rest))] is a completed pair. *)
Definition pair_ahead (uni : N) (s : string)
  : option (option (N * string)) :=
  if is_high_surrogate uni then
    match s with
    | String b (String u r) =>
        if Ascii.eqb b backslash && Ascii.eqb u "u" then
          match r with
          | String h1 (String h2 (String h3 (String h4 r'))) =>
              match hex4 h1 h2 h3 h4 with
              | Some uni2 =>
                  if is_low_surrogate uni2
                  then Some (Some (65536 + ((uni - 55296) * 1024 + (uni2 - 56320)), r'))%N
                  else Some None
              | None => None
              end
          | _ => None
          end
        else Some None
    | _ => Some None
    end
  else Some None.

(** [py_scanstring(s, end, strict=True)], started after the opening
    quote: the decoded content and what follows the closing quote. *)
Fixpoint scanstring (s : string) : option (string * string) :=
  match s with
  | EmptyString => None
  | String c rest =>
      if Ascii.eqb c dquote then Some (EmptyString, rest)
      else if Ascii.eqb c backslash then
        match rest with
        | EmptyString => None
        | String e rest1 =>
            if Ascii.eqb e "u" then
              match rest1 with
              | String h1 (String h2 (String h3 (String h4 rest2))) =>
                  match hex4 h1 h2 h3 h4 with
                  | None => None
                  | Some uni =>
                      match pair_ahead uni rest2 with
                      | None => None
                      | Some None => prepend (utf8 uni) (scanstring rest2)
                      | Some (Some (cp, _)) =>
                          match rest2 with
                          | String _ (String _ (String _ (String _ (String _ (String _ rest3))))) =>
                              prepend (utf8 cp) (scanstring rest3)
                          | _ => None
                          end
                      end
                  end
              | _ => None
              end
            else
              match simple_escape e with
              | Some x => prepend (String x EmptyString) (scanstring rest1)
              | None => None
              end
        end
      else if (Ascii.N_of_ascii c <? 32)%N then None
      else prepend (String c EmptyString) (scanstring rest)
  end.

(** *** Numbers *)

(** The longest run of decimal digits at the head of [s], most
    significant first, and what follows it. *)
Fixpoint take_digits (s : string) : list Z * string :=
  match s with
  | String c r =>
      match digit_val c with
      | Some d => let '(ds, r') := take_digits r in (d :: ds, r')
      | None => ([], s)
      end
  | EmptyString => ([], EmptyString)
  end.

Definition digits_value (ds : list Z) : Z :=
  fold_left (fun acc d => acc * 10 + d) ds 0.

(** Group 1 of [NUMBER_RE]: an optional minus sign, then either a single
    zero or a non-zero digit followed by any digits. *)
Definition match_integer (s : string) : option (bool * list Z * string) :=
  let '(neg, s1) :=
    match s with
    | String c r => if Ascii.eqb c "-" then (true, r) else (false, s)
    | EmptyString => (false, s)
    end in
  match s1 with
  | String c r =>
      match digit_val c with
      | Some 0 => Some (neg, [0], r)
      | Some d => let '(ds, r') := take_digits r in Some (neg, d :: ds, r')
      | None => None
      end
  | EmptyString => None
  end.

(** Group 2, optional: a dot followed by at least one digit. *)
Definition match_frac (s : string) : option (list Z) * string :=
  match s with
  | String c r =>
      if Ascii.eqb c "." then
        match take_digits r with
        | ([], _) => (None, s)
        | (ds, r') => (Some ds, r')
        end
      else (None, s)
  | EmptyString => (None, s)
  end.

(** Group 3, optional: [e] or [E], an optional sign, at least one digit. *)
Definition match_exp (s : string) : option Z * string :=
  match s with
  | String c r =>
      if Ascii.eqb c "e" || Ascii.eqb c "E" then
        let '(sign, r1) :=
          match r with
          | String x r0 =>
              if Ascii.eqb x "-" then (-1, r0)
              else if Ascii.eqb x "+" then (1, r0)
              else (1, r)
          | EmptyString => (1, r)
          end in
        match take_digits r1 with
        | ([], _) => (None, s)
        | (ds, r') => (Some (sign * digits_value ds), r')
        end
      else (None, s)
  | EmptyString => (None, s)
  end.

(** [int(s)] refuses a string of more than [max_str_digits] digits; the
    limit applies above 640 digits only, and 0 switches it off. *)
Definition over_int_limit (l : limits) (digits : nat) : bool :=
  ((640 <? digits) && (0 <? max_str_digits l) && (max_str_digits l <? digits))%nat.

(** A number as the scanner has it: the value, or the [ValueError] of
    [int]. *)
Inductive number : Type :=
| Number (v : json)
| IntOverLimit.

(** [NUMBER_RE.match] and the conversion: an [int] when there is neither
    a fraction nor an exponent, a [float] otherwise.  Only [int] has a
    limit on the digits. *)
Definition match_number (l : limits) (s : string) : option (number * string) :=
  match match_integer s with
  | None => None
  | Some (neg, ids, r1) =>
      let sign := if neg : bool then -1 else 1 in
      let '(frac, r2) := match_frac r1 in
      let '(exp, r3) := match_exp r2 in
      match frac, exp with
      | None, None =>
          if over_int_limit l (length ids) then Some (IntOverLimit, r3)
          else Some (Number (JInt (sign * digits_value ids)), r3)
      | _, _ =>
          let fds := default [] frac in
          Some (Number (JFloat (sign * digits_value (ids ++ fds))
                               (default 0 exp - Z.of_nat (length fds))), r3)
      end
  end.

(** *** Documents *)

(** What the scanner makes of a text: a value and the rest of the text,
    or the exception that ends the scan.  [NoFuel] is the model's own: the
    recursion below has used up its [fuel]. *)
Inductive scan (A : Type) : Type :=
| Scanned (a : A) (rest : string)
| ScanError                     (* json.JSONDecodeError *)
| ScanDigits                    (* ValueError, from int *)
| ScanDepth                     (* RecursionError *)
| NoFuel.
Arguments Scanned {A} a rest.
Arguments ScanError {A}.
Arguments ScanDigits {A}.
Arguments ScanDepth {A}.
Arguments NoFuel {A}.

(** [scan_once], [JSONArray] and [JSONObject], as the scanner of
    [_json] runs them.  [scan_elements] starts at an element of an array
    whose earlier elements are [acc] (latest first); [scan_members] starts
    after the opening quote of a member's name.  The scanner checks the
    depth of the recursion where it enters an array or an object, an empty
    one included: [depth] is the number of them it can still enter.  The
    recursion of the model is on [fuel]; [json_loads] gives enough of it
    (see [json_loads_fuel]). *)
Fixpoint scan_once (l : limits) (fuel depth : nat) (s : string) : scan json :=
  match fuel with
  | O => NoFuel
  | S fuel' =>
      match s with
      | EmptyString => ScanError
      | String c r =>
          if Ascii.eqb c dquote then
            match scanstring r with
            | Some (str, r') => Scanned (JString str) r'
            | None => ScanError
            end
          else if Ascii.eqb c "{" then
            match depth with
            | O => ScanDepth
            | S depth' =>
                match skip_ws r with
                | String c1 r1 =>
                    if Ascii.eqb c1 "}" then Scanned (JObject []) r1
                    else if Ascii.eqb c1 dquote then scan_members l fuel' depth' [] r1
                    else ScanError
                | EmptyString => ScanError
                end
            end
          else if Ascii.eqb c "[" then
            match depth with
            | O => ScanDepth
            | S depth' =>
                match skip_ws r with
                | String c1 r1 =>
                    if Ascii.eqb c1 "]" then Scanned (JArray []) r1
                    else scan_elements l fuel' depth' [] (String c1 r1)
                | EmptyString => ScanError
                end
            end
          else
            match strip_prefix "null" s, strip_prefix "true" s, strip_prefix "false" s with
            | Some r', _, _ => Scanned JNull r'
            | None, Some r', _ => Scanned (JBool true) r'
            | None, None, Some r' => Scanned (JBool false) r'
            | None, None, None =>
                match match_number l s with
                | Some (Number v, r') => Scanned v r'
                | Some (IntOverLimit, _) => ScanDigits
                | None =>
                    match strip_prefix "NaN" s, strip_prefix "Infinity" s,
                          strip_prefix "-Infinity" s with
                    | Some r', _, _ => Scanned JNaN r'
                    | None, Some r', _ => Scanned (JInfinity false) r'
                    | None, None, Some r' => Scanned (JInfinity true) r'
                    | None, None, None => ScanError
                    end
                end
            end
      end
  end
with scan_elements (l : limits) (fuel depth : nat) (acc : list json) (s : string)
  : scan json :=
  match fuel with
  | O => NoFuel
  | S fuel' =>
      match scan_once l fuel' depth s with
      | Scanned v r =>
          match skip_ws r with
          | String c r1 =>
              if Ascii.eqb c "]" then Scanned (JArray (rev (v :: acc))) r1
              else if Ascii.eqb c ","
              then scan_elements l fuel' depth (v :: acc) (skip_ws r1)
              else ScanError
          | EmptyString => ScanError
          end
      | ScanError => ScanError
      | ScanDigits => ScanDigits
      | ScanDepth => ScanDepth
      | NoFuel => NoFuel
      end
  end
with scan_members (l : limits) (fuel depth : nat) (acc : list (string * json)) (s : string)
  : scan json :=
  match fuel with
  | O => NoFuel
  | S fuel' =>
      match scanstring s with
      | None => ScanError
      | Some (key, r) =>
          match skip_ws r with
          | String c r1 =>
              if Ascii.eqb c ":" then
                match scan_once l fuel' depth (skip_ws r1) with
                | Scanned v r2 =>
                    match skip_ws r2 with
                    | String c2 r3 =>
                        if Ascii.eqb c2 "}" then Scanned (JObject (rev ((key, v) :: acc))) r3
                        else if Ascii.eqb c2 "," then
                          match skip_ws r3 with
                          | String c3 r4 =>
                              if Ascii.eqb c3 dquote
                              then scan_members l fuel' depth ((key, v) :: acc) r4
                              else ScanError
                          | EmptyString => ScanError
                          end
                        else ScanError
                    | EmptyString => ScanError
                    end
                | ScanError => ScanError
                | ScanDigits => ScanDigits
                | ScanDepth => ScanDepth
                | NoFuel => NoFuel
                end
              else ScanError
          | EmptyString => ScanError
          end
      end
  end.

(** The UTF-8 byte order mark, which [json.loads] refuses. *)
Definition bom : string :=
  String (byte 239) (String (byte 187) (String (byte 191) EmptyString)).

Definition fuel_for (s : string) : nat := 2 * String.length s + 2.

(** What [json.loads] comes to: the document, or one of the three
    exceptions that it raises. *)
Inductive loaded : Type :=
| Loaded (v : json)
| NotJson                       (* json.JSONDecodeError *)
| IntTooLong                    (* ValueError *)
| NestedTooDeep.                (* RecursionError *)

(** [json.loads(s)] under the limits [l]. *)
Definition json_loads (l : limits) (s : string) : loaded :=
  match strip_prefix bom s with
  | Some _ => NotJson
  | None =>
      match scan_once l (fuel_for s) (max_nesting l) (skip_ws s) with
      | Scanned v r =>
          match skip_ws r with
          | EmptyString => Loaded v
          | String _ _ => NotJson
          end
      | ScanError => NotJson
      | ScanDigits => IntTooLong
      | ScanDepth => NestedTooDeep
      | NoFuel => NotJson
      end
  end.

End Json.

(** ** Exceptions, results and printed text *)

Module Py.

Import Json.

(** The exceptions that the modelled code raises or lets through.
    [BridgeError] is the client library's own; [SystemExit] is what
    [argparse] raises after the help and after a usage error; [HTTPError]
    is what [Response.raise_for_status] raises; [JSONDecodeError] covers
    [json.JSONDecodeError] and its subclass in [requests]; [ValueError] is
    the one of [int] for a literal beyond the digit limit, which is not a
    [JSONDecodeError]; [RecursionError] is the one of a document nested
    too deep; [RequestException] stands for a failed HTTP exchange
    (connection refused, timeout); [OSError] for a file that cannot be
    read. *)
Inductive exn : Type :=
| BridgeError (status_code : Z) (message : json)
| SystemExit (code : Z)
| HTTPError (msg : string)
| JSONDecodeError
| ValueError
| RecursionError
| AttributeError (msg : string)
| RequestException (msg : string)
| OSError (msg : string).

Inductive result (A : Type) : Type :=
| Return (a : A)
| Raise (e : exn).
Arguments Return {A} a.
Arguments Raise {A} e.

(** [isinstance(e, Exception)]: [SystemExit] derives from
    [BaseException] only. *)
Definition is_Exception (e : exn) : bool :=
  match e with
  | SystemExit _ => false
  | _ => true
  end.

(** [json.loads(s)] as a computation that returns or raises. *)
Definition loads (l : limits) (s : string) : result json :=
  match json_loads l s with
  | Loaded v => Return v
  | NotJson => Raise JSONDecodeError
  | IntTooLong => Raise ValueError
  | NestedTooDeep => Raise RecursionError
  end.

(** Text written on a standard stream.  Where the text is a string of
    the model it is a [Lit]; the renderings that the model does not spell
    out stay symbolic: [Str v] is [str(v)] of a value that is not a string,
    [DecodeErrorText], [DigitsErrorText] and [DepthErrorText] are the
    messages of the three exceptions of the decoder, [Dumps v] is
    [json.dumps(v, indent=2)], and [HelpText] is the help of [argparse]. *)
Inductive frag : Type :=
| Lit (s : string)
| Str (v : json)
| DecodeErrorText
| DigitsErrorText
| DepthErrorText
| Dumps (v : json)
| HelpText.

Definition pytext : Type := list frag.

(** [str(v)]. *)
Definition str (v : json) : pytext :=
  match v with
  | JString s => [Lit s]
  | _ => [Str v]
  end.

(** [str(e)]. *)
Definition exn_str (e : exn) : pytext :=
  match e with
  | BridgeError sc m => Lit ("Bridge error " +:+ pretty sc +:+ ": ") :: str m
  | SystemExit c => [Lit (pretty c)]
  | HTTPError msg => [Lit msg]
  | JSONDecodeError => [DecodeErrorText]
  | ValueError => [DigitsErrorText]
  | RecursionError => [DepthErrorText]
  | AttributeError msg => [Lit msg]
  | RequestException msg => [Lit msg]
  | OSError msg => [Lit msg]
  end.

(** [a or b] on values whose falsy case is known. *)
Definition or_else {A} (truth : A → bool) (a b : A) : A :=
  if truth a then a else b.

End Py.

(** ** The part of [requests] that the client uses *)

Module Requests.

Import PyStr Json Py.

Record Request : Type := {
  req_method : string;
  req_url : string;
  req_data : option string;
  req_headers : option (gmap string string);
  req_timeout : Q
}.

Record Response : Type := {
  status_code : Z;
  reason : string;
  resp_url : string;
  resp_headers : list (string * string);
  text : string
}.

(** [resp.headers.get(name, default)]: the header names of a response
    compare without regard to case. *)
Fixpoint headers_get (hs : list (string * string)) (name default : string) : string :=
  match hs with
  | [] => default
  | (k, v) :: rest =>
      if String.eqb (lower k) (lower name) then v else headers_get rest name default
  end.

(** [Response.raise_for_status]. *)
Definition raise_for_status (r : Response) : result unit :=
  let sc := status_code r in
  if (400 <=? sc) && (sc <? 500) then
    Raise (HTTPError (pretty sc +:+ " Client Error: " +:+ reason r
                        +:+ " for url: " +:+ resp_url r))
  else if (500 <=? sc) && (sc <? 600) then
    Raise (HTTPError (pretty sc +:+ " Server Error: " +:+ reason r
                        +:+ " for url: " +:+ resp_url r))
  else Return tt.

(** [Response.ok]: whether [raise_for_status] would pass. *)
Definition ok (r : Response) : bool :=
  match raise_for_status r with
  | Return _ => true
  | Raise _ => false
  end.

(** [Response.json]: [json.loads] of the text.  The library raises the
    decoding error again as its own subclass, which [JSONDecodeError]
    covers, and lets the other exceptions pass. *)
Definition Response_json (l : limits) (r : Response) : result json := loads l (text r).

End Requests.

(** ** Effects *)

Module Sys.

Import Json Py Requests.

Inductive event : Type :=
| EvHttp (r : Request)          (* a request sent through the session *)
| EvClose                       (* the session closed *)
| EvOpen (path : string)        (* a file opened for reading *)
| EvStdinRead                   (* standard input read to its end *)
| EvStdout (t : pytext)         (* text written on standard output *)
| EvStderr (t : pytext)         (* a line printed on standard error *)
| EvUsage (msg : string)        (* argparse: usage and "prog: error: msg" on standard error *)
| EvTraceback (e : exn).        (* the interpreter's report of an uncaught exception *)

(** What the outside gives back: a value, or a failure with the message
    of the exception it is raised as. *)
Inductive answer (A : Type) : Type :=
| Got (a : A)
| Failed (msg : string).
Arguments Got {A} a.
Arguments Failed {A} msg.

(** What a run of a script can observe, and the effects so far:
    [files path] is the text of the file, or the message of the
    [OSError] that reading it raises; [bridge r] is the response to the
    request, or the message of the [RequestException] that the exchange
    raises; [interpreter] holds the limits under which [json.loads]
    runs. *)
Record world : Type := {
  environ : gmap string string;
  stdin_isatty : bool;
  stdin_text : string;
  files : string → answer string;
  bridge : Request → answer Response;
  interpreter : limits;
  trace : list event
}.

Definition log (e : event) (w : world) : world :=
  {| environ := environ w; stdin_isatty := stdin_isatty w;
     stdin_text := stdin_text w; files := files w; bridge := bridge w;
     interpreter := interpreter w;
     trace := trace w ++ [e] |}.

Definition M (A : Type) : Type := world → result A * world.

Definition ret {A} (a : A) : M A := fun w => (Return a, w).
Definition raise {A} (e : exn) : M A := fun w => (Raise e, w).

Definition bind {A B} (m : M A) (k : A → M B) : M B :=
  fun w =>
    match m w with
    | (Return a, w') => k a w'
    | (Raise e, w') => (Raise e, w')
    end.

Definition lift {A} (r : result A) : M A := fun w => (r, w).

(** A computation that depends on the limits of the interpreter only. *)
Definition under_limits {A} (f : limits → result A) : M A :=
  fun w => (f (interpreter w), w).

Definition emit (e : event) : M unit := fun w => (Return tt, log e w).

(** [try: m except ...: h]: [h e] is the handler of the first clause
    that matches [e], if any. *)
Definition try_except {A} (m : M A) (h : exn → option (M A)) : M A :=
  fun w =>
    match m w with
    | (Return a, w') => (Return a, w')
    | (Raise e, w') =>
        match h e with
        | Some k => k w'
        | None => (Raise e, w')
        end
    end.

(** [try: m finally: f]. *)
Definition finally {A} (m : M A) (f : M unit) : M A :=
  fun w =>
    let '(r, w') := m w in
    match f w' with
    | (Return _, w'') => (r, w'')
    | (Raise e, w'') => (Raise e, w'')
    end.

Definition getenv (k : string) : M (option string) :=
  fun w => (Return (environ w !! k), w).

Definition isatty : M bool := fun w => (Return (stdin_isatty w), w).

(** [sys.stdin.read()]. *)
Definition stdin_read : M string :=
  fun w => (Return (stdin_text w), log EvStdinRead w).

(** [with open(path, "r", encoding="utf-8") as f: f.read()].  No file
    has the empty path. *)
Definition read_file (path : string) : M string :=
  fun w =>
    (if String.eqb path EmptyString
     then Raise (OSError "[Errno 2] No such file or directory: ''")
     else
       match files w path with
       | Got content => Return content
       | Failed msg => Raise (OSError msg)
       end,
     log (EvOpen path) w).

Definition print (t : pytext) : M unit := emit (EvStdout t).
Definition eprint (t : pytext) : M unit := emit (EvStderr t).

(** [parser.error(msg)]: the usage and the message go to standard
    error and the process exits with status 2. *)
Definition parser_error {A} (msg : string) : M A :=
  fun w => (Raise (SystemExit 2), log (EvUsage msg) w).

(** The action of [-h] and [--help]: the help goes to standard output
    and the process exits with status 0. *)
Definition parser_help {A} : M A :=
  fun w => (Raise (SystemExit 0), log (EvStdout [HelpText]) w).

(** [session.request]: the exchange with the bridge. *)
Definition session_request (r : Request) : M Response :=
  fun w =>
    (match bridge w r with
     | Got resp => Return resp
     | Failed msg => Raise (RequestException msg)
     end,
     log (EvHttp r) w).

(** [sys.exit(main())] under the interpreter: the exit status and the
    final world.  An exception that leaves [main] is reported with a
    traceback and status 1, except [SystemExit], which carries its own. *)
Definition run_script (main : M Z) (w : world) : Z * world :=
  match main w with
  | (Return n, w') => (n, w')
  | (Raise (SystemExit c), w') => (c, w')
  | (Raise e, w') => (1, log (EvTraceback e) w')
  end.

End Sys.

(** [M] with stdpp's monad notation: [x ← m; k] and [m;; k]. *)
#[global] Instance M_ret : MRet Sys.M := @Sys.ret.
#[global] Instance M_bind : MBind Sys.M := fun A B k m => Sys.bind m k.

(** ** [http_to_ems_client.py] *)

Module Client.

Import PyStr Json Py Requests Sys.

Definition DEFAULT_BRIDGE_URL : string := "http://localhost:8080".

(** [class SendResult]. *)
Record SendResult : Type := {
  status : Z;
  body : string;
  message_id : json
}.

(** [SendResult.__init__]: [message_id] defaults to [None], and a falsy
    one becomes the empty string. *)
Definition SendResult_init (status : Z) (body : string) (message_id : json) : SendResult :=
  {| status := status; body := body;
     message_id := or_else truthy message_id (JString "") |}.

(** [class HttpToEmsClient]: the state set by [__init__]. *)
Record HttpToEmsClient : Type := {
  base_url : string;
  timeout : Q
}.

Definition init (base_url : string) (timeout : Q) : HttpToEmsClient :=
  {| base_url := rstrip_slash base_url; timeout := timeout |}.

(** The parameters of [send]. *)
Record SendArgs : Type := {
  jms_url : string;
  user : string;
  queue : string;
  data : string;                (* the parameter [body], posted as [data=body] *)
  password : option string;
  reply_queue : option string;
  publish_only : bool;
  timeout_ms : option Z;
  correlation_id : option string;
  headers : option (gmap string string);
  use_json : bool
}.

(** [d[k] = v] when [cond] holds. *)
Definition set_if (cond : bool) (k v : string) (d : gmap string string) : gmap string string :=
  if cond then <[k := v]> d else d.

(** [if o: d[k] = o] for an [Optional[str]]. *)
Definition set_opt (k : string) (o : option string) (d : gmap string string) : gmap string string :=
  match o with
  | Some v => set_if (PyStr.truthy v) k v d
  | None => d
  end.

(** Truth value of a dict. *)
Definition dict_truthy (d : gmap string string) : bool := negb (bool_decide (d = ∅)).

(** [d.update(e)]. *)
Definition update (d e : gmap string string) : gmap string string := e ∪ d.

(** The fixed headers of [send], lines 70 to 89. *)
Definition fixed_headers (a : SendArgs) : gmap string string :=
  let h := <["JMS-QU1" := queue a]> (<["JMS-USR" := user a]> (<["JMS-URL" := jms_url a]> ∅)) in
  let h := set_opt "JMS-PSW" (password a) h in
  let h :=
    if publish_only a then <["JMS-PUBLISH-ONLY" := "YES"]> h
    else
      let h := set_opt "JMS-QU2" (reply_queue a) h in
      match timeout_ms a with
      | Some t => <["JMS-TIMEOUT" := pretty t]> h
      | None => h
      end in
  let h := set_opt "JMS-CORRELATION-ID" (correlation_id a) h in
  if use_json a
  then <["Accept" := "application/json"]> (<["Content-Type" := "application/json"]> h)
  else h.

(** [req_headers] as [send] hands it to the session, lines 70 to 92. *)
Definition send_headers (a : SendArgs) : gmap string string :=
  let h := fixed_headers a in
  match headers a with
  | Some extra => if dict_truthy extra then update h extra else h
  | None => h
  end.

(** The request of [send], lines 94 to 100. *)
Definition send_request (self : HttpToEmsClient) (a : SendArgs) : Request :=
  {| req_method := "POST";
     req_url := base_url self +:+ "/";
     req_data := Some (data a);
     req_headers := Some (send_headers a);
     req_timeout := timeout self |}.

Definition is_json (resp : Response) : bool :=
  contains "application/json" (headers_get (resp_headers resp) "Content-Type" "text/plain").

(** The exception of [v.get] on a value without the method. *)
Definition no_get (v : json) : exn :=
  AttributeError ("'" +:+ type_name v +:+ "' object has no attribute 'get'").

(** [v.get(k, d)]: only a dict has the method. *)
Definition get_method (v : json) (k : string) (d : json) : result json :=
  match v with
  | JObject members => Return (default d (dict_get k members))
  | _ => Raise (no_get v)
  end.

(** What [send] makes of the response, lines 102 to 125, under the
    limits [l] of the interpreter.  Of the exceptions of [json.loads] the
    two [try] blocks catch [json.JSONDecodeError] alone; the others, and
    the [AttributeError] of [.get], leave [send]. *)
Definition send_result (l : limits) (publish_only : bool) (resp : Response)
  : result SendResult :=
  let response_body := text resp in
  if negb (ok resp) then
    if is_json resp then
      match loads l response_body with
      | Return err =>
          match get_method err "error" (JString response_body) with
          | Return error_msg => Raise (BridgeError (status_code resp) error_msg)
          | Raise e => Raise e
          end
      | Raise JSONDecodeError =>
          Raise (BridgeError (status_code resp) (JString response_body))
      | Raise e => Raise e
      end
    else Raise (BridgeError (status_code resp) (JString response_body))
  else if publish_only && is_json resp then
    match loads l response_body with
    | Return data =>
        match get_method data "messageId" (JString "") with
        | Return message_id =>
            Return (SendResult_init (status_code resp) response_body message_id)
        | Raise e => Raise e
        end
    | Raise JSONDecodeError =>
        Return (SendResult_init (status_code resp) response_body JNull)
    | Raise e => Raise e
    end
  else Return (SendResult_init (status_code resp) response_body JNull).

(** [HttpToEmsClient.send]. *)
Definition send (self : HttpToEmsClient) (a : SendArgs) : M SendResult :=
  resp ← session_request (send_request self a);
  under_limits (fun l => send_result l (publish_only a) resp).

(** The keyword arguments that [publish] passes on to [send]; a caller
    who leaves one out gets the default of [send]. *)
Record PublishKwargs : Type := {
  pk_reply_queue : option string;
  pk_timeout_ms : option Z;
  pk_correlation_id : option string;
  pk_headers : option (gmap string string);
  pk_use_json : bool
}.

(** [HttpToEmsClient.publish]. *)
Definition publish (self : HttpToEmsClient) (jms_url user queue body : string)
    (password : option string) (kwargs : PublishKwargs) : M SendResult :=
  send self
    {| jms_url := jms_url; user := user; queue := queue; data := body;
       password := password;
       publish_only := true;
       reply_queue := pk_reply_queue kwargs;
       timeout_ms := pk_timeout_ms kwargs;
       correlation_id := pk_correlation_id kwargs;
       headers := pk_headers kwargs;
       use_json := pk_use_json kwargs |}.

(** The keyword arguments that [request_reply] passes on to [send]. *)
Record RequestReplyKwargs : Type := {
  rk_correlation_id : option string;
  rk_headers : option (gmap string string);
  rk_use_json : bool
}.

(** [timeout_ms or 30000]. *)
Definition timeout_or_default (timeout_ms : option Z) : Z :=
  match timeout_ms with
  | Some t => if t =? 0 then 30000 else t
  | None => 30000
  end.

(** [HttpToEmsClient.request_reply]. *)
Definition request_reply (self : HttpToEmsClient) (jms_url user queue body : string)
    (password reply_queue : option string) (timeout_ms : option Z)
    (kwargs : RequestReplyKwargs) : M SendResult :=
  send self
    {| jms_url := jms_url; user := user; queue := queue; data := body;
       password := password;
       reply_queue := reply_queue;
       publish_only := false;
       timeout_ms := Some (timeout_or_default timeout_ms);
       correlation_id := rk_correlation_id kwargs;
       headers := rk_headers kwargs;
       use_json := rk_use_json kwargs |}.

(** The request of [get_stats], lines 173 to 180. *)
Definition stats_request (self : HttpToEmsClient) (use_json : bool) : Request :=
  let headers := set_if use_json "Accept" "application/json" ∅ in
  {| req_method := "GET";
     req_url := base_url self +:+ "/metrics";
     req_data := None;
     req_headers := if dict_truthy headers then Some headers else None;
     req_timeout := timeout self |}.

(** The test of line 182. *)
Definition stats_is_json (use_json : bool) (resp : Response) : bool :=
  use_json && contains "application/json" (headers_get (resp_headers resp) "Content-Type" "").

(** [HttpToEmsClient.get_stats]. *)
Definition get_stats (self : HttpToEmsClient) (use_json : bool) : M json :=
  resp ← session_request (stats_request self use_json);
  lift (raise_for_status resp);;
  if stats_is_json use_json resp
  then under_limits (fun l => Response_json l resp)
  else mret (JObject [("raw", JString (text resp))]).

(** [HttpToEmsClient.close]. *)
Definition close (self : HttpToEmsClient) : M unit := emit EvClose.

(** [with client: ...]: [__exit__] closes the session on every way out. *)
Definition with_client {A} (self : HttpToEmsClient) (block : HttpToEmsClient → M A) : M A :=
  finally (block self) (close self).

(** *** What the specification says of the two conveniences

    The counterparts of [publish] and [request_reply] written from the
    specification's words: [send] with [publish_only] forced, and for
    [request_reply] a timeout of 30000 ms when none is given. *)

Definition spec_timeout (timeout_ms : option Z) : Z :=
  match timeout_ms with
  | Some t => t
  | None => 30000
  end.

Definition spec_request_reply (self : HttpToEmsClient) (jms_url user queue body : string)
    (password reply_queue : option string) (timeout_ms : option Z)
    (kwargs : RequestReplyKwargs) : M SendResult :=
  send self
    {| jms_url := jms_url; user := user; queue := queue; data := body;
       password := password;
       reply_queue := reply_queue;
       publish_only := false;
       timeout_ms := Some (spec_timeout timeout_ms);
       correlation_id := rk_correlation_id kwargs;
       headers := rk_headers kwargs;
       use_json := rk_use_json kwargs |}.

End Client.

(** ** The command-line scripts

  A command line is modelled by what [argparse] reads in it: how its
  scan of the argument strings ends ([reading]), and the values of the
  options it gives ([None]: the option is absent), already converted to
  the declared type.  What [argparse] does with them (defaults, help,
  required options, unrecognized arguments, the usage error) is modelled
  from the [add_argument] declarations. *)

Module Cli.

Import PyStr Json Py Requests Sys.

(** The names of the required options that are absent, as [argparse]
    lists them. *)
Definition missing (required : list (string * option string)) : list string :=
  omap (fun '(name, given) => match given with None => Some name | Some _ => None end)
       required.

(** [argparse]'s check of the required options. *)
Definition check_required (required : list (string * option string)) : M unit :=
  match missing required with
  | [] => mret tt
  | names =>
      parser_error ("the following arguments are required: " +:+ String.concat ", " names)
  end.

(** How the scan of the argument strings ends.  [argparse] takes the
    strings from left to right.  [Help]: it comes to [-h] or [--help].
    [Rejected msg]: it comes to a string that it refuses with the message
    [msg]: an option without its value, a value that is not of the
    declared type (as [--timeout] or [--timeout-sec] with a value that is
    not a number), an ambiguous abbreviation, a value given to a flag.
    [Accepted extras]: it comes to the end, having met the strings
    [extras] that belong to no declared option. *)
Inductive reading : Type :=
| Accepted (extras : list string)
| Help
| Rejected (msg : string).

(** [parser.parse_args()] before it returns the namespace: the scan,
    then the check of the required options, then the refusal of
    unrecognized arguments. *)
Definition parse_known (r : reading) (required : list (string * option string)) : M unit :=
  match r with
  | Help => parser_help
  | Rejected msg => parser_error msg
  | Accepted extras =>
      check_required required;;
      match extras with
      | [] => mret tt
      | _ => parser_error ("unrecognized arguments: " +:+ String.concat " " extras)
      end
  end.

(** [user = args.user or os.environ.get("JMS_USR")] and the check that
    follows: the same lines in the three sending scripts, which differ
    in the message only. *)
Definition resolve_user (args_user : option string) (msg : string) : M string :=
  env_user ← getenv "JMS_USR";
  match or_else truthy_opt args_user env_user with
  | Some user => if PyStr.truthy user then mret user else parser_error msg
  | None => parser_error msg
  end.

(** The body of the message: the same lines in the three sending
    scripts ([ems_send.py] 115 to 120). *)
Definition resolve_body (args_body : string) (args_file : option string) : M string :=
  let otherwise : M string :=
    if negb (PyStr.truthy args_body) then
      tty ← isatty;
      if negb tty then stdin_read else mret args_body
    else mret args_body in
  match args_file with
  | Some path => if PyStr.truthy path then read_file path else otherwise
  | None => otherwise
  end.

(** The lines of a sending script before its [try]: the arguments, the
    user and the body.  The three scripts have them in common, up to the
    options they declare and the message of the usage error. *)
Definition prepare_with {X : Type} (parse : M X) (a_user : X → option string)
    (msg : string) (a_body : X → string) (a_file : X → option string)
  : M (X * string * string) :=
  a ← parse;
  user ← resolve_user (a_user a) msg;
  body ← resolve_body (a_body a) (a_file a);
  mret (a, user, body).

(** [password = args.password or None], then [None] for the empty
    string. *)
Definition resolve_password (args_password : string) : option string :=
  let password := if PyStr.truthy args_password then Some args_password else None in
  match password with
  | Some p => if String.eqb p "" then None else Some p
  | None => None
  end.

(** The handler of [except BridgeError as e]. *)
Definition on_BridgeError (e : exn) : option (M Z) :=
  match e with
  | BridgeError _ message => Some (eprint (Lit "Error: " :: str message);; mret 1)
  | _ => None
  end.

(** The handler of [except Exception as e]. *)
Definition on_Exception (e : exn) : option (M Z) :=
  if is_Exception e then Some (eprint (Lit "Error: " :: exn_str e);; mret 1) else None.

(** Two [except] clauses in order. *)
Definition first_of (h1 h2 : exn → option (M Z)) (e : exn) : option (M Z) :=
  match h1 e with
  | Some k => Some k
  | None => h2 e
  end.

Definition default_bridge : M string :=
  env_bridge ← getenv "HTTP_EMS_BRIDGE_URL";
  mret (default Client.DEFAULT_BRIDGE_URL env_bridge).

Definition default_password : M string :=
  env_psw ← getenv "JMS_PSW";
  mret (default "" env_psw).

End Cli.

(** *** [ems_send.py] *)

Module EmsSend.

Import PyStr Json Py Requests Sys Cli.

Record cli : Type := {
  argv : reading;
  bridge : option string;
  url : option string;
  user : option string;
  password : option string;
  queue : option string;
  body : option string;
  file : option string;
  publish_only : bool;
  reply_queue : option string;
  timeout : option Z;
  correlation_id : option string;
  plain : bool;
  timeout_sec : option Q
}.

(** The namespace that [parse_args] returns. *)
Record args : Type := {
  a_bridge : string;
  a_url : string;
  a_user : option string;
  a_password : string;
  a_queue : string;
  a_body : string;
  a_file : option string;
  a_publish_only : bool;
  a_reply_queue : option string;
  a_timeout : Z;
  a_correlation_id : option string;
  a_plain : bool;
  a_timeout_sec : Q
}.

Definition parse_args (c : cli) : M args :=
  dflt_bridge ← default_bridge;
  dflt_user ← getenv "JMS_USR";
  dflt_password ← default_password;
  parse_known (argv c) [("--url/-u", url c); ("--queue/-q", queue c)];;
  mret {| a_bridge := default dflt_bridge (bridge c);
          a_url := default "" (url c);
          a_user := match user c with Some u => Some u | None => dflt_user end;
          a_password := default dflt_password (password c);
          a_queue := default "" (queue c);
          a_body := default "" (body c);
          a_file := file c;
          a_publish_only := publish_only c;
          a_reply_queue := reply_queue c;
          a_timeout := default 30000 (timeout c);
          a_correlation_id := correlation_id c;
          a_plain := plain c;
          a_timeout_sec := default (60 # 1)%Q (timeout_sec c) |}.

(** The arguments of the call [client.send(...)], lines 128 to 139. *)
Definition send_args (a : args) (user body : string) (password : option string)
  : Client.SendArgs :=
  {| Client.jms_url := a_url a;
     Client.user := user;
     Client.queue := a_queue a;
     Client.data := body;
     Client.password := password;
     Client.reply_queue := a_reply_queue a;
     Client.publish_only := a_publish_only a;
     Client.timeout_ms := Some (a_timeout a);
     Client.correlation_id := a_correlation_id a;
     Client.headers := None;
     Client.use_json := negb (a_plain a) |}.

(** Lines 109 to 120: the arguments, the user and the body. *)
Definition prepare (c : cli) : M (args * string * string) :=
  a ← parse_args c;
  user ← resolve_user (a_user a)
           "--user is required (or set JMS_USR environment variable)";
  body ← resolve_body (a_body a) (a_file a);
  mret (a, user, body).

(** [main], lines 17 to 150. *)
Definition main (c : cli) : M Z :=
  '(a, user, body) ← prepare c;
  let password := resolve_password (a_password a) in
  try_except
    (let client := Client.init (a_bridge a) (a_timeout_sec a) in
     result ← Client.send client (send_args a user body password);
     Client.close client;;
     print [Lit (Client.body result)];;
     mret 0)
    (first_of on_BridgeError on_Exception).

End EmsSend.

(** *** [publish.py] *)

Module Publish.

Import PyStr Json Py Requests Sys Cli.

Record cli : Type := {
  argv : reading;
  bridge : option string;
  url : option string;
  user : option string;
  password : option string;
  queue : option string;
  body : option string;
  file : option string
}.

Record args : Type := {
  a_bridge : string;
  a_url : string;
  a_user : option string;
  a_password : string;
  a_queue : string;
  a_body : string;
  a_file : option string
}.

Definition parse_args (c : cli) : M args :=
  dflt_bridge ← default_bridge;
  dflt_user ← getenv "JMS_USR";
  dflt_password ← default_password;
  parse_known (argv c) [("--url/-u", url c); ("--queue/-q", queue c)];;
  mret {| a_bridge := default dflt_bridge (bridge c);
          a_url := default "" (url c);
          a_user := match user c with Some u => Some u | None => dflt_user end;
          a_password := default dflt_password (password c);
          a_queue := default "" (queue c);
          a_body := default "" (body c);
          a_file := file c |}.

(** No keyword argument beyond the named ones: the defaults of [send]. *)
Definition no_kwargs : Client.PublishKwargs :=
  {| Client.pk_reply_queue := None; Client.pk_timeout_ms := None;
     Client.pk_correlation_id := None; Client.pk_headers := None;
     Client.pk_use_json := true |}.

(** The arguments, the user and the body: the lines before [try]. *)
Definition prepare (c : cli) : M (args * string * string) :=
  a ← parse_args c;
  user ← resolve_user (a_user a) "--user is required (or set JMS_USR)";
  body ← resolve_body (a_body a) (a_file a);
  mret (a, user, body).

Definition main (c : cli) : M Z :=
  '(a, user, body) ← prepare c;
  let password := resolve_password (a_password a) in
  try_except
    (result ← Client.with_client (Client.init (a_bridge a) (60 # 1)%Q)
                (fun client =>
                   Client.publish client (a_url a) user (a_queue a) body password no_kwargs);
     print (str (or_else truthy (Client.message_id result) (JString (Client.body result))));;
     mret 0)
    on_BridgeError.

End Publish.

(** *** [request_reply.py] *)

Module RequestReply.

Import PyStr Json Py Requests Sys Cli.

Record cli : Type := {
  argv : reading;
  bridge : option string;
  url : option string;
  user : option string;
  password : option string;
  queue : option string;
  reply_queue : option string;
  body : option string;
  file : option string;
  timeout : option Z
}.

Record args : Type := {
  a_bridge : string;
  a_url : string;
  a_user : option string;
  a_password : string;
  a_queue : string;
  a_reply_queue : option string;
  a_body : string;
  a_file : option string;
  a_timeout : Z
}.

Definition parse_args (c : cli) : M args :=
  dflt_bridge ← default_bridge;
  dflt_user ← getenv "JMS_USR";
  dflt_password ← default_password;
  parse_known (argv c) [("--url/-u", url c); ("--queue/-q", queue c)];;
  mret {| a_bridge := default dflt_bridge (bridge c);
          a_url := default "" (url c);
          a_user := match user c with Some u => Some u | None => dflt_user end;
          a_password := default dflt_password (password c);
          a_queue := default "" (queue c);
          a_reply_queue := reply_queue c;
          a_body := default "" (body c);
          a_file := file c;
          a_timeout := default 30000 (timeout c) |}.

Definition no_kwargs : Client.RequestReplyKwargs :=
  {| Client.rk_correlation_id := None; Client.rk_headers := None;
     Client.rk_use_json := true |}.

(** The arguments, the user and the body: the lines before [try]. *)
Definition prepare (c : cli) : M (args * string * string) :=
  a ← parse_args c;
  user ← resolve_user (a_user a) "--user is required (or set JMS_USR)";
  body ← resolve_body (a_body a) (a_file a);
  mret (a, user, body).

Definition main (c : cli) : M Z :=
  '(a, user, body) ← prepare c;
  let password := resolve_password (a_password a) in
  try_except
    (result ← Client.with_client (Client.init (a_bridge a) (60 # 1)%Q)
                (fun client =>
                   Client.request_reply client (a_url a) user (a_queue a) body password
                     (a_reply_queue a) (Some (a_timeout a)) no_kwargs);
     print [Lit (Client.body result)];;
     mret 0)
    on_BridgeError.

End RequestReply.

(** *** [get_stats.py] *)

Module GetStats.

Import PyStr Json Py Requests Sys Cli.

Record cli : Type := {
  argv : reading;
  bridge : option string;
  plain : bool
}.

Record args : Type := {
  a_bridge : string;
  a_plain : bool
}.

Definition parse_args (c : cli) : M args :=
  dflt_bridge ← default_bridge;
  parse_known (argv c) [];;
  mret {| a_bridge := default dflt_bridge (bridge c); a_plain := plain c |}.

(** Lines 35 to 41: what is printed for [stats]. *)
Definition show (plain : bool) (stats : json) : pytext :=
  if plain then
    match stats with
    | JObject members =>
        match dict_get "raw" members with
        | Some raw => str raw
        | None => [Dumps stats]
        end
    | _ => [Dumps stats]
    end
  else [Dumps stats].

Definition main (c : cli) : M Z :=
  a ← parse_args c;
  try_except
    (stats ← Client.with_client (Client.init (a_bridge a) (60 # 1)%Q)
               (fun client => Client.get_stats client (negb (a_plain a)));
     print (show (a_plain a) stats);;
     mret 0)
    on_Exception.

End GetStats.

(** ** What a run reports *)

Module Report.

Import Json Py Sys.

(** The text after the [Error: ] prefix for a caught exception: the
    message of a [BridgeError], and [str(e)] of any other exception. *)
Definition error_text (e : exn) : pytext :=
  match e with
  | BridgeError _ message => str message
  | _ => exn_str e
  end.



End Report.

(** ** Sample inputs *)

Module Sample.

Import PyStr Json Py Requests Sys Client Cli.

(** [s] between double quotes. *)
Definition quoted (s : string) : string := String dquote (s +:+ String dquote "").

(** The JSON text of an object with the single member [k], whose value
    is written [v]. *)
Definition object1 (k v : string) : string := "{" +:+ quoted k +:+ ":" +:+ v +:+ "}".

Definition body_bad_queue : string := object1 "error" (quoted "bad queue").

Definition response (status : Z) (content_type body : string) : Response :=
  {| status_code := status;
     reason := "";
     resp_url := "http://localhost:8080/";
     resp_headers := [("Content-Type", content_type)];
     text := body |}.

Definition no_file (path : string) : answer string :=
  Failed ("[Errno 2] No such file or directory: '" +:+ path +:+ "'").

(** An interpreter with the default limit on the digits of an [int] and
    room for a thousand nested arrays and objects. *)
Definition cpython : limits := {| max_str_digits := 4300; max_nesting := 1000 |}.

(** [n] times the text [s]. *)
Fixpoint times (n : nat) (s : string) : string :=
  match n with
  | O => ""
  | S n' => s +:+ times n' s
  end.

(** A world with an empty environment, a terminal on standard input and
    no file, in which the bridge answers every request with [resp]. *)
Definition answering (resp : Response) : world :=
  {| environ := ∅; stdin_isatty := true; stdin_text := "";
     files := no_file; bridge := fun _ => Got resp; interpreter := cpython;
     trace := [] |}.

Definition client : HttpToEmsClient := init DEFAULT_BRIDGE_URL (60 # 1)%Q.

(** [send("tcp://localhost:7222", "admin", "queue.test", "Hello", ...)]. *)
Definition call (publish_only : bool) (reply_queue : option string)
    (timeout_ms : option Z) (headers : option (gmap string string)) : SendArgs :=
  {| jms_url := "tcp://localhost:7222"; user := "admin"; queue := "queue.test";
     data := "Hello"; password := None; reply_queue := reply_queue;
     publish_only := publish_only; timeout_ms := timeout_ms;
     correlation_id := None; headers := headers; use_json := true |}.

Definition no_kwargs : RequestReplyKwargs :=
  {| rk_correlation_id := None; rk_headers := None; rk_use_json := true |}.



(** A world in which no bridge is listening. *)
Definition unreachable : world :=
  {| environ := ∅; stdin_isatty := true; stdin_text := "";
     files := no_file; bridge := fun _ => Failed "Connection refused";
     interpreter := cpython; trace := [] |}.

(** [ems_send.py --url tcp://localhost:7222 --queue queue.test] with the
    options given. *)
Definition ems_send_cli (user body file : option string) (timeout : option Z) : EmsSend.cli :=
  {| EmsSend.argv := Accepted [];
     EmsSend.bridge := None; EmsSend.url := Some "tcp://localhost:7222";
     EmsSend.user := user; EmsSend.password := None;
     EmsSend.queue := Some "queue.test"; EmsSend.body := body; EmsSend.file := file;
     EmsSend.publish_only := false; EmsSend.reply_queue := None;
     EmsSend.timeout := timeout; EmsSend.correlation_id := None;
     EmsSend.plain := false; EmsSend.timeout_sec := None |}.

(** [publish.py --url tcp://localhost:7222 --queue queue.test] with the
    options given. *)
Definition publish_cli (user body file : option string) : Publish.cli :=
  {| Publish.argv := Accepted [];
     Publish.bridge := None; Publish.url := Some "tcp://localhost:7222";
     Publish.user := user; Publish.password := None;
     Publish.queue := Some "queue.test"; Publish.body := body; Publish.file := file |}.

(** [request_reply.py --url tcp://localhost:7222 --queue queue.req] with
    the options given. *)
Definition request_reply_cli (user body file : option string) (timeout : option Z)
  : RequestReply.cli :=
  {| RequestReply.argv := Accepted [];
     RequestReply.bridge := None; RequestReply.url := Some "tcp://localhost:7222";
     RequestReply.user := user; RequestReply.password := None;
     RequestReply.queue := Some "queue.req"; RequestReply.reply_queue := None;
     RequestReply.body := body; RequestReply.file := file;
     RequestReply.timeout := timeout |}.

(** [get_stats.py]. *)
Definition get_stats_cli : GetStats.cli :=
  {| GetStats.argv := Accepted []; GetStats.bridge := None; GetStats.plain := false |}.

(** The header [k] of the first request in a trace. *)
Definition first_request_header (k : string) (t : list event) : option string :=
  match t with
  | EvHttp r :: _ => h ← req_headers r; h !! k
  | _ => None
  end.

End Sample.

(** ** Observing a run *)

Module Observe.

Import PyStr Json Py Requests Sys.

(** The events that a computation adds to the trace of [w] when it ends
    in [w']. *)
Definition events_since (w w' : world) : list event :=
  drop (length (trace w)) (trace w').

(** The requests among the events, in order. *)
Definition requests_of (t : list event) : list Request :=
  omap (fun e => match e with EvHttp r => Some r | _ => None end) t.

(** How many times the session is closed. *)
Definition closes_of (t : list event) : nat :=
  length (List.filter (fun e => match e with EvClose => true | _ => false end) t).

(** An [Optional[str]] that is given: neither [None] nor empty. *)
Definition given (o : option string) : option string :=
  match o with
  | Some v => if PyStr.truthy v then Some v else None
  | None => None
  end.

(** The names of the headers that [send] sets by itself. *)
Definition fixed_names : list string :=
  ["JMS-URL"; "JMS-USR"; "JMS-QU1"; "JMS-PSW"; "JMS-PUBLISH-ONLY"; "JMS-QU2";
   "JMS-TIMEOUT"; "JMS-CORRELATION-ID"; "Content-Type"; "Accept"].

(** What a sending script does before its request: nothing, one read of
    standard input, or one read of a file. *)
Definition body_read (pre : list event) : Prop :=
  pre = [] ∨ pre = [EvStdinRead] ∨ ∃ path, pre = [EvOpen path].




(** The bridge URL of a script: [--bridge], else HTTP_EMS_BRIDGE_URL, else
    the default. *)
Definition bridge_url (option : option string) (w : world) : string :=
  default (default Client.DEFAULT_BRIDGE_URL (environ w !! "HTTP_EMS_BRIDGE_URL")) option.

End Observe.

(** * Properties *)

Import PyStr Json Py Requests Sys Client Cli Report Sample.

(** ** The decoder terminates within its fuel *)

Section decoder_fuel.
Local Open Scope nat_scope.

Lemma skip_ws_length s : String.length (skip_ws s) ≤ String.length s.
Proof. induction s as [|c r IH]; simpl; [lia|]. destruct (is_ws c); simpl; lia. Qed.

Lemma strip_prefix_length p : ∀ s r,
  strip_prefix p s = Some r → String.length s = String.length p + String.length r.
Proof.
  induction p as [|a p IH]; intros s r H; simpl in *; [by simplify_eq|].
  destruct s as [|b s]; [done|]. destruct (Ascii.eqb a b); [|done].
  apply IH in H. simpl. lia.
Qed.

Lemma prepend_Some p o str r :
  prepend p o = Some (str, r) → ∃ str', o = Some (str', r).
Proof. destruct o as [[str' r']|]; simpl; intros H; simplify_eq. by eexists. Qed.

Lemma scanstring_length_aux n : ∀ s str r,
  String.length s ≤ n → scanstring s = Some (str, r) → String.length r < String.length s.
Proof.
  induction n as [|n IH]; intros s str r Hn H; destruct s as [|c rest]; simpl in *;
    try done; try lia.
  repeat case_match; simplify_eq; simpl in *; try lia;
    apply prepend_Some in H as [str' H]; apply IH in H; simpl in *; lia.
Qed.

Lemma scanstring_length s str r :
  scanstring s = Some (str, r) → String.length r < String.length s.
Proof. by apply (scanstring_length_aux (String.length s)). Qed.

Lemma take_digits_length s : String.length (take_digits s).2 ≤ String.length s.
Proof.
  induction s as [|c r IH]; simpl; [lia|].
  destruct (digit_val c); [|simpl; lia].
  destruct (take_digits r) as [ds r']. simpl in *. lia.
Qed.

Lemma match_integer_length s neg ds r :
  match_integer s = Some (neg, ds, r) → String.length r < String.length s.
Proof.
  unfold match_integer. intros H.
  repeat case_match; simplify_eq; simpl in *; try lia;
  match goal with
  | Hd : take_digits ?x = (_, ?y) |- _ =>
      pose proof (take_digits_length x) as Hl; rewrite Hd in Hl; simpl in Hl; lia
  end.
Qed.

Lemma match_frac_length s : String.length (match_frac s).2 ≤ String.length s.
Proof.
  unfold match_frac. repeat case_match; simplify_eq; simpl; try lia;
  match goal with
  | Hd : take_digits ?x = (_, ?y) |- _ =>
      pose proof (take_digits_length x) as Hl; rewrite Hd in Hl; simpl in Hl; lia
  end.
Qed.

Lemma match_exp_length s : String.length (match_exp s).2 ≤ String.length s.
Proof.
  unfold match_exp. repeat case_match; simplify_eq; simpl; try lia;
  match goal with
  | Hd : take_digits ?x = (_, ?y) |- _ =>
      pose proof (take_digits_length x) as Hl; rewrite Hd in Hl; simpl in Hl; lia
  end.
Qed.

Lemma match_number_length l s v r :
  match_number l s = Some (v, r) → String.length r < String.length s.
Proof.
  unfold match_number. intros H.
  destruct (match_integer s) as [[[neg ids] r1]|] eqn:Hi; [|done].
  apply match_integer_length in Hi.
  pose proof (match_frac_length r1) as Hf. destruct (match_frac r1) as [frac r2].
  pose proof (match_exp_length r2) as He. destruct (match_exp r2) as [exp r3].
  simpl in *. destruct frac, exp, (over_int_limit l (length ids)); simplify_eq; lia.
Qed.

Ltac length_facts :=
  repeat match goal with
    | H : scanstring _ = Some _ |- _ => apply scanstring_length in H
    | H : match_number _ _ = Some _ |- _ => apply match_number_length in H
    | H : strip_prefix _ _ = Some _ |- _ => apply strip_prefix_length in H
    | H : skip_ws ?x = String _ _ |- _ =>
        let Hl := fresh "Hl" in
        pose proof (skip_ws_length x) as Hl; rewrite H in Hl; clear H
    | IH : (∀ d s v r, scan_once _ ?f d s = Scanned v r → _),
      H : scan_once _ ?f _ _ = Scanned _ _ |- _ => apply IH in H
    | IH : (∀ d acc s v r, scan_elements _ ?f d acc s = Scanned v r → _),
      H : scan_elements _ ?f _ _ _ = Scanned _ _ |- _ => apply IH in H
    | IH : (∀ d acc s v r, scan_members _ ?f d acc s = Scanned v r → _),
      H : scan_members _ ?f _ _ _ = Scanned _ _ |- _ => apply IH in H
    end;
  repeat match goal with
    | |- context [skip_ws ?x] =>
        lazymatch goal with
        | _ : String.length (skip_ws x) ≤ _ |- _ => fail
        | _ => pose proof (skip_ws_length x)
        end
    | _ : context [skip_ws ?x] |- _ =>
        lazymatch goal with
        | _ : String.length (skip_ws x) ≤ _ |- _ => fail
        | _ => pose proof (skip_ws_length x)
        end
    end;
  simpl String.length in *.

Context (l : limits).

Lemma scan_length fuel :
  (∀ d s v r, scan_once l fuel d s = Scanned v r → String.length r < String.length s) ∧
  (∀ d acc s v r, scan_elements l fuel d acc s = Scanned v r →
                  String.length r < String.length s) ∧
  (∀ d acc s v r, scan_members l fuel d acc s = Scanned v r →
                  String.length r < String.length s).
Proof.
  induction fuel as [|fuel (IH1 & IH2 & IH3)]; [by split_and!|].
  split_and!.
  - intros d s v r H. cbn [scan_once] in H.
    repeat case_match; simplify_eq; length_facts; lia.
  - intros d acc s v r H. cbn [scan_elements] in H.
    repeat case_match; simplify_eq; length_facts; lia.
  - intros d acc s v r H. cbn [scan_members] in H.
    repeat case_match; simplify_eq; length_facts; lia.
Qed.

Lemma scan_fuel fuel :
  (∀ d s, 2 * String.length s + 1 ≤ fuel → scan_once l fuel d s ≠ NoFuel) ∧
  (∀ d acc s, 2 * String.length s + 2 ≤ fuel → scan_elements l fuel d acc s ≠ NoFuel) ∧
  (∀ d acc s, 2 * String.length s + 2 ≤ fuel → scan_members l fuel d acc s ≠ NoFuel).
Proof.
  induction fuel as [|fuel (IH1 & IH2 & IH3)]; [split_and!; intros; simpl in *; lia|].
  pose proof (scan_length fuel) as (L1 & L2 & L3).
  split_and!.
  - intros d s Hf. cbn [scan_once].
    repeat case_match; simplify_eq; try done;
      (apply IH2 || apply IH3); length_facts; lia.
  - intros d acc s Hf. cbn [scan_elements].
    repeat case_match; simplify_eq; try done.
    + apply IH2. length_facts. lia.
    + match goal with H : scan_once _ _ _ _ = NoFuel |- _ => exfalso; revert H end.
      apply IH1. lia.
  - intros d acc s Hf. cbn [scan_members].
    repeat case_match; simplify_eq; try done.
    + apply IH3. length_facts. lia.
    + match goal with H : scan_once _ _ _ _ = NoFuel |- _ => exfalso; revert H end.
      apply IH1. length_facts. lia.
Qed.

(** [json_loads] never runs out of fuel: what it reports is what the
    decoder comes to. *)
Lemma json_loads_fuel d s : scan_once l (fuel_for s) d (skip_ws s) ≠ NoFuel.
Proof.
  apply scan_fuel. unfold fuel_for. pose proof (skip_ws_length s). lia.
Qed.

Lemma scan_elements_S fuel d acc s :
  scan_elements l (S fuel) d acc s =
    match scan_once l fuel d s with
    | Scanned v r =>
        match skip_ws r with
        | String c r1 =>
            if Ascii.eqb c "]" then Scanned (JArray (rev (v :: acc))) r1
            else if Ascii.eqb c "," then scan_elements l fuel d (v :: acc) (skip_ws r1)
            else ScanError
        | EmptyString => ScanError
        end
    | ScanError => ScanError
    | ScanDigits => ScanDigits
    | ScanDepth => ScanDepth
    | NoFuel => NoFuel
    end.
Proof. reflexivity. Qed.

Lemma scan_members_S fuel d acc s :
  scan_members l (S fuel) d acc s =
    match scanstring s with
    | None => ScanError
    | Some (key, r) =>
        match skip_ws r with
        | String c r1 =>
            if Ascii.eqb c ":" then
              match scan_once l fuel d (skip_ws r1) with
              | Scanned v r2 =>
                  match skip_ws r2 with
                  | String c2 r3 =>
                      if Ascii.eqb c2 "}" then Scanned (JObject (rev ((key, v) :: acc))) r3
                      else if Ascii.eqb c2 "," then
                        match skip_ws r3 with
                        | String c3 r4 =>
                            if Ascii.eqb c3 dquote
                            then scan_members l fuel d ((key, v) :: acc) r4
                            else ScanError
                        | EmptyString => ScanError
                        end
                      else ScanError
                  | EmptyString => ScanError
                  end
              | ScanError => ScanError
              | ScanDigits => ScanDigits
              | ScanDepth => ScanDepth
              | NoFuel => NoFuel
              end
            else ScanError
        | EmptyString => ScanError
        end
    end.
Proof. reflexivity. Qed.

(** Once the decoder has an answer, more fuel does not change it. *)
Lemma scan_more_fuel fuel :
  (∀ d s, scan_once l fuel d s ≠ NoFuel → scan_once l (S fuel) d s = scan_once l fuel d s) ∧
  (∀ d acc s, scan_elements l fuel d acc s ≠ NoFuel →
              scan_elements l (S fuel) d acc s = scan_elements l fuel d acc s) ∧
  (∀ d acc s, scan_members l fuel d acc s ≠ NoFuel →
              scan_members l (S fuel) d acc s = scan_members l fuel d acc s).
Proof.
  induction fuel as [|fuel (IH1 & IH2 & IH3)]; [by split_and!|].
  split_and!.
  - intros d s. cbn [scan_once].
    repeat case_match; simplify_eq; try done; intros Hnf.
    + by apply IH3.
    + by apply IH2.
  - intros d acc s.
    rewrite (scan_elements_S (S fuel) d acc s), (scan_elements_S fuel d acc s).
    destruct (scan_once l fuel d s) as [v r| | | |] eqn:Hs; [| | | |done];
      (rewrite IH1 by (rewrite Hs; done)); rewrite Hs; [|done..].
    repeat case_match; simplify_eq; try done. intros Hnf. by apply IH2.
  - intros d acc s.
    rewrite (scan_members_S (S fuel) d acc s), (scan_members_S fuel d acc s).
    destruct (scanstring s) as [[key r]|]; [|done].
    destruct (skip_ws r) as [|c r1]; [done|].
    destruct (Ascii.eqb c ":"); [|done].
    destruct (scan_once l fuel d (skip_ws r1)) as [v r2| | | |] eqn:Hs; [| | | |done];
      (rewrite IH1 by (rewrite Hs; done)); rewrite Hs; [|done..].
    repeat case_match; simplify_eq; try done. intros Hnf. by apply IH3.
Qed.

(** What [json_loads] finds is what the decoder finds with any larger
    fuel. *)
Lemma scan_once_enough_fuel d s extra :
  scan_once l (fuel_for s + extra) d (skip_ws s) = scan_once l (fuel_for s) d (skip_ws s).
Proof.
  induction extra as [|extra IH]; [by rewrite Nat.add_0_r|].
  rewrite Nat.add_succ_r, <- IH.
  apply (proj1 (scan_more_fuel _)). rewrite IH. apply json_loads_fuel.
Qed.
End decoder_fuel.

(** The decoder on a few texts, as Python decodes them. *)

Example json_loads_object :
  json_loads cpython body_bad_queue = Loaded (JObject [("error", JString "bad queue")]).
Proof. vm_compute. reflexivity. Qed.

Example json_loads_numbers :
  json_loads cpython " [0, -12, 2.50e3, NaN, -Infinity, true, null] "
  = Loaded (JArray [JInt 0; JInt (-12); JFloat 250 1; JNaN; JInfinity true; JBool true; JNull]).
Proof. vm_compute. reflexivity. Qed.

Example json_loads_nested :
  json_loads cpython (object1 "a" (object1 "b" "[[], {}]"))
  = Loaded (JObject [("a", JObject [("b", JArray [JArray []; JObject []])])]).
Proof. vm_compute. reflexivity. Qed.

Example json_loads_escapes :
  json_loads cpython (quoted "a\u00e9\n") = Loaded (JString ("a" +:+ utf8 233 +:+ utf8 10)).
Proof. vm_compute. reflexivity. Qed.

Example json_loads_rejects :
  json_loads cpython "" = NotJson ∧ json_loads cpython "[1,]" = NotJson
  ∧ json_loads cpython "01" = NotJson ∧ json_loads cpython "{a:1}" = NotJson
  ∧ json_loads cpython "1 2" = NotJson ∧ json_loads cpython (bom +:+ "1") = NotJson.
Proof. vm_compute. done. Qed.

(** The limits of the interpreter.  An integer of 4300 digits is
    decoded and one of 4301 digits is a [ValueError], while a float may
    have as many digits as it likes; a thousand nested arrays are decoded
    and a thousand and one are a [RecursionError], raised where the
    scanner enters the array, before it looks at what the array holds;
    without a limit on the digits the long integer is decoded. *)
Example json_loads_limits :
  (∃ n, json_loads cpython (times 4300 "7") = Loaded (JInt n))
  ∧ json_loads cpython (times 4301 "7") = IntTooLong
  ∧ json_loads cpython ("[" +:+ times 4301 "7" +:+ "x") = IntTooLong
  ∧ (∃ m e, json_loads cpython (times 4301 "7" +:+ ".5") = Loaded (JFloat m e))
  ∧ (∃ v, json_loads cpython (times 1000 "[" +:+ times 1000 "]") = Loaded v)
  ∧ json_loads cpython (times 1001 "[" +:+ times 1001 "]") = NestedTooDeep
  ∧ json_loads cpython (times 1001 "[") = NestedTooDeep
  ∧ json_loads cpython (times 1000 "[") = NotJson
  ∧ (∃ n, json_loads {| max_str_digits := 0; max_nesting := 1000 |} (times 4301 "7")
          = Loaded (JInt n)).
Proof.
  split_and!; try (vm_compute; reflexivity); eexists; try eexists; vm_compute; reflexivity.
Qed.

Example truthy_underflow :
  truthy (JFloat 1 (-400)) = false ∧ truthy (JFloat 5 (-324)) = true
  ∧ truthy (JFloat 0 7) = false ∧ truthy JNull = false ∧ truthy (JString "0") = true.
Proof. vm_compute. done. Qed.



(** ** The headers of [send] *)

Lemma set_if_lookup_ne c k v d k' : k ≠ k' → set_if c k v d !! k' = d !! k'.
Proof. intros Hne. unfold set_if. destruct c; [by rewrite lookup_insert_ne|done]. Qed.

Lemma set_opt_lookup_ne k o d k' : k ≠ k' → set_opt k o d !! k' = d !! k'.
Proof. intros Hne. destruct o as [v|]; simpl; [by apply set_if_lookup_ne|done]. Qed.

Lemma fixed_headers_publish_only a k :
  publish_only a = true → k = "JMS-QU2" ∨ k = "JMS-TIMEOUT" → fixed_headers a !! k = None.
Proof.
  intros Hp Hk. unfold fixed_headers. rewrite Hp.
  destruct (use_json a); destruct Hk as [-> | ->];
    repeat (rewrite ?set_opt_lookup_ne, ?lookup_insert_ne by done); done.
Qed.

Lemma fixed_headers_request_reply a :
  publish_only a = false → fixed_headers a !! "JMS-PUBLISH-ONLY" = None.
Proof.
  intros Hp. unfold fixed_headers. rewrite Hp.
  destruct (use_json a), (timeout_ms a);
    repeat (rewrite ?set_opt_lookup_ne, ?lookup_insert_ne by done); done.
Qed.

Lemma send_headers_extra a extra k v :
  headers a = Some extra → extra !! k = Some v → send_headers a !! k = Some v.
Proof.
  intros He Hk. unfold send_headers. rewrite He.
  unfold dict_truthy. case_bool_decide as Hd; simpl.
  - subst extra. by rewrite lookup_empty in Hk.
  - unfold update. by apply lookup_union_Some_l.
Qed.

Lemma send_headers_fixed a k :
  default ∅ (headers a) !! k = None → send_headers a !! k = fixed_headers a !! k.
Proof.
  intros Hk. unfold send_headers. destruct (headers a) as [extra|]; [|done].
  simpl in Hk. destruct (dict_truthy extra); [|done].
  unfold update. by apply lookup_union_r.
Qed.

Import PyStr Json Py Requests Sys Client.

(** ** The response to [send] *)

Lemma send_effect self a w :
  send self a w = (match bridge w (send_request self a) with
                   | Got resp => send_result (interpreter w) (publish_only a) resp
                   | Failed msg => Raise (RequestException msg) end,
                   log (EvHttp (send_request self a)) w).
Proof.
  unfold send, mbind, M_bind, bind, session_request, under_limits.
  destruct (bridge w (send_request self a)); reflexivity.
Qed.

Lemma ok_false resp : ok resp = false ↔ 400 ≤ status_code resp < 600.
Proof.
  unfold ok, raise_for_status.
  destruct (400 <=? status_code resp) eqn:H1, (status_code resp <? 500) eqn:H2,
    (500 <=? status_code resp) eqn:H3, (status_code resp <? 600) eqn:H4; simpl; split; intros; try done; lia.
Qed.


Lemma ok_true resp : ¬ (400 ≤ status_code resp < 600) → ok resp = true.
Proof. intros H. destruct (ok resp) eqn:E; [done|]. apply ok_false in E. by destruct H. Qed.

Lemma get_method_object members k d :
  get_method (JObject members) k d = Return (default d (dict_get k members)).
Proof. reflexivity. Qed.

Lemma get_method_other v k d :
  (∀ members, v ≠ JObject members) → get_method v k d = Raise (no_get v).
Proof. intros Hv. destruct v; try done. by destruct (Hv members). Qed.

(** What [send] makes of a response with a status from 400 to 599, by
    the Content-Type and by what [json.loads] comes to. *)
Lemma send_result_error l po resp :
  ok resp = false →
  (is_json resp = false →
   send_result l po resp = Raise (BridgeError (status_code resp) (JString (text resp))))
  ∧ (is_json resp = true →
     (json_loads l (text resp) = NotJson →
      send_result l po resp = Raise (BridgeError (status_code resp) (JString (text resp))))
     ∧ (∀ members,
          json_loads l (text resp) = Loaded (JObject members) →
          send_result l po resp
          = Raise (BridgeError (status_code resp)
                     (default (JString (text resp)) (dict_get "error" members))))
     ∧ (∀ v, json_loads l (text resp) = Loaded v → (∀ members, v ≠ JObject members) →
             send_result l po resp = Raise (no_get v))
     ∧ (json_loads l (text resp) = IntTooLong → send_result l po resp = Raise ValueError)
     ∧ (json_loads l (text resp) = NestedTooDeep →
        send_result l po resp = Raise RecursionError)).
Proof.
  intros Hok. unfold send_result, loads. rewrite Hok. simpl. split.
  - by intros ->.
  - intros ->. split_and!.
    + by intros ->.
    + by intros members ->.
    + intros v -> Hv. by rewrite get_method_other.
    + by intros ->.
    + by intros ->.
Qed.

(** What [send] makes of any other response. *)
Lemma send_result_success l po resp :
  ok resp = true →
  send_result l po resp =
    if po && is_json resp then
      match json_loads l (text resp) with
      | Loaded data =>
          match get_method data "messageId" (JString "") with
          | Return message_id => Return (SendResult_init (status_code resp) (text resp) message_id)
          | Raise e => Raise e
          end
      | NotJson => Return (SendResult_init (status_code resp) (text resp) JNull)
      | IntTooLong => Raise ValueError
      | NestedTooDeep => Raise RecursionError
      end
    else Return (SendResult_init (status_code resp) (text resp) JNull).
Proof.
  intros Hok. unfold send_result, loads. rewrite Hok. simpl.
  destruct (po && is_json resp); [|done]. by destruct (json_loads l (text resp)).
Qed.








(** ** [get_stats] *)

Lemma get_stats_effect self use_json w :
  get_stats self use_json w =
    (match bridge w (stats_request self use_json) with
     | Got resp =>
         match raise_for_status resp with
         | Return _ =>
             if stats_is_json use_json resp then Response_json (interpreter w) resp
             else Return (JObject [("raw", JString (text resp))])
         | Raise e => Raise e
         end
     | Failed msg => Raise (RequestException msg)
     end,
     log (EvHttp (stats_request self use_json)) w).
Proof.
  unfold get_stats, mbind, M_bind, bind, session_request, lift, under_limits, mret, M_ret, ret.
  destruct (bridge w (stats_request self use_json)) as [resp|e]; [|done].
  destruct (raise_for_status resp); [|done].
  by destruct (stats_is_json use_json resp).
Qed.







(** ** The headers transmitted *)

Lemma send_transmits self a w :
  (send self a w).2 = log (EvHttp (send_request self a)) w
  ∧ req_headers (send_request self a) = Some (send_headers a).
Proof. by rewrite send_effect. Qed.

(** C3, as amended.  With [publish_only] set, the headers that [send]
    builds and transmits contain neither JMS-QU2 nor JMS-TIMEOUT, whatever
    [reply_queue] and [timeout_ms] are, provided the caller's extra headers
    do not supply that name themselves. *)
Theorem publish_only_omits_reply_headers self a w k :
  publish_only a = true →
  k = "JMS-QU2" ∨ k = "JMS-TIMEOUT" →
  default ∅ (headers a) !! k = None →
  (send self a w).2 = log (EvHttp (send_request self a)) w
  ∧ req_headers (send_request self a) = Some (send_headers a)
  ∧ send_headers a !! k = None.
Proof.
  intros Hp Hk Hextra. destruct (send_transmits self a w) as [Ht Hh].
  split_and!; [done | done |].
  rewrite send_headers_fixed by done. by apply fixed_headers_publish_only.
Qed.

Lemma publish_only_omits_reply_headers_witness :
  let a := call true (Some "queue.reply") (Some 5000) (Some {[ "JMSPriority" := "4" ]}) in
  publish_only a = true
  ∧ default ∅ (headers a) !! "JMS-QU2" = None
  ∧ send_headers a !! "JMS-QU2" = None
  ∧ send_headers a !! "JMSPriority" = Some "4".
Proof.
  intros a.
  assert (He : default ∅ (headers a) !! "JMS-QU2" = None) by (vm_compute; reflexivity).
  split_and!; [reflexivity | exact He | | vm_compute; reflexivity].
  exact (proj2 (proj2 (publish_only_omits_reply_headers client a (answering (response 200 "text/plain" ""))
                         "JMS-QU2" eq_refl (or_introl eq_refl) He))).
Defined.

(** C3, counterexample.  A publish-only call whose extra headers carry
    JMS-QU2 and JMS-TIMEOUT: both are in the headers transmitted. *)
Lemma publish_only_omits_reply_headers_counterexample :
  let a := call true None None
             (Some (<[ "JMS-QU2" := "queue.reply" ]> {[ "JMS-TIMEOUT" := "5000" ]})) in
  let w := answering (response 200 "text/plain" "") in
  publish_only a = true
  ∧ ∃ r h, trace (send client a w).2 = [EvHttp r]
           ∧ req_headers r = Some h
           ∧ h !! "JMS-QU2" = Some "queue.reply"
           ∧ h !! "JMS-TIMEOUT" = Some "5000".
Proof.
  intros a w. split; [reflexivity|].
  exists (send_request client a), (send_headers a).
  split_and!; vm_compute; reflexivity.
Qed.

(** C8, as amended.  With [publish_only] unset, the headers that [send]
    builds and transmits do not contain JMS-PUBLISH-ONLY, provided the
    caller's extra headers do not supply it themselves. *)
Theorem request_reply_omits_publish_only self a w :
  publish_only a = false →
  default ∅ (headers a) !! "JMS-PUBLISH-ONLY" = None →
  (send self a w).2 = log (EvHttp (send_request self a)) w
  ∧ req_headers (send_request self a) = Some (send_headers a)
  ∧ send_headers a !! "JMS-PUBLISH-ONLY" = None.
Proof.
  intros Hp Hextra. destruct (send_transmits self a w) as [Ht Hh].
  split_and!; [done | done |].
  rewrite send_headers_fixed by done. by apply fixed_headers_request_reply.
Qed.

Lemma request_reply_omits_publish_only_witness :
  let a := call false (Some "queue.reply") (Some 5000) None in
  publish_only a = false
  ∧ default ∅ (headers a) !! "JMS-PUBLISH-ONLY" = None
  ∧ send_headers a !! "JMS-PUBLISH-ONLY" = None
  ∧ send_headers a !! "JMS-TIMEOUT" = Some "5000".
Proof.
  intros a. split_and!; [reflexivity | reflexivity | | vm_compute; reflexivity].
  exact (proj2 (proj2 (request_reply_omits_publish_only client a
                         (answering (response 200 "text/plain" "")) eq_refl eq_refl))).
Defined.

(** C8, counterexample.  A call with [publish_only] unset whose extra
    headers carry JMS-PUBLISH-ONLY: the header is transmitted. *)
Lemma request_reply_omits_publish_only_counterexample :
  let a := call false None None (Some {[ "JMS-PUBLISH-ONLY" := "YES" ]}) in
  let w := answering (response 200 "text/plain" "") in
  publish_only a = false
  ∧ ∃ r h, trace (send client a w).2 = [EvHttp r]
           ∧ req_headers r = Some h
           ∧ h !! "JMS-PUBLISH-ONLY" = Some "YES".
Proof.
  intros a w. split; [reflexivity|].
  exists (send_request client a), (send_headers a).
  split_and!; vm_compute; reflexivity.
Qed.





(** ** The scripts, stage by stage *)

Ltac unfold_M :=
  unfold parser_error, parser_help, getenv, isatty, stdin_read, read_file, print, eprint,
    emit, lift, under_limits, mbind, M_bind, bind, mret, M_ret, ret in *.

Lemma check_required_cases required w :
  check_required required w = (Return tt, w)
  ∨ ∃ msg, check_required required w = (Raise (SystemExit 2), log (EvUsage msg) w).
Proof.
  unfold check_required. destruct (missing required); [by left|right]. by eexists.
Qed.

(** [parse_args] returns only when the scan comes to the end without
    unrecognized arguments and no required option is missing; it ends in a
    usage error, or in the help when the scan comes to [-h]. *)
Lemma parse_known_cases r required w :
  (parse_known r required w = (Return tt, w) ∧ r = Accepted [] ∧ missing required = [])
  ∨ (∃ msg, parse_known r required w = (Raise (SystemExit 2), log (EvUsage msg) w))
  ∨ (r = Help ∧ parse_known r required w = (Raise (SystemExit 0), log (EvStdout [HelpText]) w)).
Proof.
  destruct r as [extras| |msg]; simpl.
  - unfold check_required. unfold_M.
    destruct (missing required); [|right; left; by eexists].
    destruct extras; [by left | right; left; by eexists].
  - right. right. done.
  - right. left. by eexists.
Qed.

Lemma resolve_user_cases args_user msg w :
  (∃ user, resolve_user args_user msg w = (Return user, w)
           ∧ (args_user = Some user
              ∨ truthy_opt args_user = false ∧ environ w !! "JMS_USR" = Some user))
  ∨ resolve_user args_user msg w = (Raise (SystemExit 2), log (EvUsage msg) w).
Proof.
  unfold resolve_user, or_else. unfold_M.
  destruct (truthy_opt args_user) eqn:Hu.
  - destruct args_user as [user|]; [|done]. simpl in Hu. rewrite Hu. left. eauto.
  - destruct (environ w !! "JMS_USR") as [user|]; [|by right].
    destruct (PyStr.truthy user); [left; eauto | by right].
Qed.

Lemma resolve_user_missing msg w :
  environ w !! "JMS_USR" = None →
  resolve_user None msg w = (Raise (SystemExit 2), log (EvUsage msg) w).
Proof. intros He. unfold resolve_user, or_else. unfold_M. simpl. by rewrite He. Qed.

Lemma resolve_body_cases args_body args_file w :
  (∃ body w', resolve_body args_body args_file w = (Return body, w')
              ∧ (w' = w ∨ w' = log EvStdinRead w ∨ ∃ path, w' = log (EvOpen path) w))
  ∨ (∃ msg path, resolve_body args_body args_file w = (Raise (OSError msg), log (EvOpen path) w)).
Proof.
  unfold resolve_body. unfold_M.
  destruct args_file as [path|]; [destruct (PyStr.truthy path) eqn:Hp|].
  - unfold PyStr.truthy in Hp. apply negb_true_iff in Hp. rewrite Hp.
    destruct (files w path); [left|right]; eauto 10.
  - destruct (PyStr.truthy args_body); simpl; [|destruct (stdin_isatty w); simpl];
      left; eauto 10.
  - destruct (PyStr.truthy args_body); simpl; [|destruct (stdin_isatty w); simpl];
      left; eauto 10.
Qed.





Section sending_script.

Context {X : Type} (parse : M X) (a_user : X → option string) (msg : string)
  (a_body : X → string) (a_file : X → option string).

Hypothesis parse_cases : ∀ w,
  (∃ a, parse w = (Return a, w))
  ∨ (∃ m, parse w = (Raise (SystemExit 2), log (EvUsage m) w))
  ∨ parse w = (Raise (SystemExit 0), log (EvStdout [HelpText]) w).

Lemma prepare_with_cases w :
  (∃ a user body w2,
      prepare_with parse a_user msg a_body a_file w = (Return (a, user, body), w2)
      ∧ parse w = (Return a, w)
      ∧ resolve_user (a_user a) msg w = (Return user, w)
      ∧ resolve_body (a_body a) (a_file a) w = (Return body, w2)
      ∧ bridge w2 = bridge w ∧ interpreter w2 = interpreter w)
  ∨ (∃ m, prepare_with parse a_user msg a_body a_file w = (Raise (SystemExit 2), log (EvUsage m) w))
  ∨ (∃ m path, prepare_with parse a_user msg a_body a_file w = (Raise (OSError m), log (EvOpen path) w))
  ∨ (parse w = (Raise (SystemExit 0), log (EvStdout [HelpText]) w)
     ∧ prepare_with parse a_user msg a_body a_file w
       = (Raise (SystemExit 0), log (EvStdout [HelpText]) w)).
Proof.
  unfold prepare_with, mbind, M_bind, bind.
  destruct (parse_cases w) as [[a Ha] | [[m Hm] | Hh]];
    [rewrite Ha | rewrite Hm; eauto | rewrite Hh; eauto 10].
  destruct (resolve_user_cases (a_user a) msg w) as [(user & Hu & _) | Hu];
    rewrite Hu; [|eauto].
  destruct (resolve_body_cases (a_body a) (a_file a) w)
    as [(body & w2 & Hb & Hw) | (m & path & Hb)]; rewrite Hb; [|eauto 10].
  left. exists a, user, body, w2. split_and!; try done;
    by destruct Hw as [-> | [-> | [path ->]]].
Qed.

End sending_script.



Lemma last_log e w : last (trace (log e w)) = Some e.
Proof. unfold log. simpl. apply last_snoc. Qed.

Lemma send_raises self a w e w' :
  send self a w = (Raise e, w') → is_Exception e = true.
Proof.
  rewrite send_effect. intros H. simplify_eq.
  destruct (bridge w (send_request self a)) as [resp|msg]; [|by simplify_eq].
  unfold send_result, loads, get_method in *.
  repeat case_match; by simplify_eq.
Qed.



Lemma get_stats_raises self use_json w e w' :
  get_stats self use_json w = (Raise e, w') → is_Exception e = true.
Proof.
  rewrite get_stats_effect. intros H. simplify_eq.
  unfold raise_for_status, Response_json, loads in *.
  repeat case_match; by simplify_eq.
Qed.

(** *** [ems_send.py] *)

Lemma ems_send_parse_args c w :
  (∃ a, EmsSend.parse_args c w = (Return a, w)
        ∧ EmsSend.a_user a = match EmsSend.user c with
                           | Some u => Some u
                           | None => environ w !! "JMS_USR"
                           end
        ∧ EmsSend.a_body a = default "" (EmsSend.body c)
        ∧ EmsSend.a_file a = EmsSend.file c
        ∧ EmsSend.argv c = Accepted [])
  ∨ (∃ m, EmsSend.parse_args c w = (Raise (SystemExit 2), log (EvUsage m) w))
  ∨ (EmsSend.argv c = Help
     ∧ EmsSend.parse_args c w = (Raise (SystemExit 0), log (EvStdout [HelpText]) w)).
Proof.
  unfold EmsSend.parse_args, default_bridge, default_password. unfold_M.
  destruct (parse_known_cases (EmsSend.argv c)
              [("--url/-u", EmsSend.url c); ("--queue/-q", EmsSend.queue c)] w)
    as [(-> & Hr & _) | [[m ->] | [Hr ->]]]; [left | right; left; eauto | right; right; done].
  eexists. split; [reflexivity|]. done.
Qed.

Lemma ems_send_prepare c w :
  (∃ a user body w2,
      EmsSend.prepare c w = (Return (a, user, body), w2)
      ∧ EmsSend.parse_args c w = (Return a, w)
      ∧ resolve_body (EmsSend.a_body a) (EmsSend.a_file a) w = (Return body, w2)
      ∧ bridge w2 = bridge w ∧ interpreter w2 = interpreter w)
  ∨ (∃ m, EmsSend.prepare c w = (Raise (SystemExit 2), log (EvUsage m) w))
  ∨ (∃ m path, EmsSend.prepare c w = (Raise (OSError m), log (EvOpen path) w))
  ∨ (EmsSend.argv c = Help
     ∧ EmsSend.prepare c w = (Raise (SystemExit 0), log (EvStdout [HelpText]) w)).
Proof.
  destruct (prepare_with_cases (EmsSend.parse_args c) EmsSend.a_user
              "--user is required (or set JMS_USR environment variable)"
              EmsSend.a_body EmsSend.a_file) with (w := w)
    as [(a & user & body & w2 & H & Hp & _ & Hb & Hbr) | [H | [H | [Hh H]]]].
  - intros w0. destruct (ems_send_parse_args c w0) as [(a & Ha & _) | [Hm | [_ Hh]]]; eauto.
  - left. eauto 10.
  - right. left. exact H.
  - right. right. left. exact H.
  - right. right. right. split; [|exact H].
    destruct (ems_send_parse_args c w) as [(a & Ha & _) | [[m Hm] | [Hr _]]];
      [congruence | congruence | exact Hr].
Qed.

Lemma ems_send_main c w a user body w2 :
  EmsSend.prepare c w = (Return (a, user, body), w2) →
  EmsSend.main c w =
    match send (init (EmsSend.a_bridge a) (EmsSend.a_timeout_sec a))
               (EmsSend.send_args a user body (resolve_password (EmsSend.a_password a))) w2 with
    | (Return result, w3) =>
        (Return 0, log (EvStdout [Lit (Client.body result)]) (log EvClose w3))
    | (Raise e, w3) =>
        if is_Exception e
        then (Return 1, log (EvStderr (Lit "Error: " :: error_text e)) w3)
        else (Raise e, w3)
    end.
Proof.
  intros Hp. unfold EmsSend.main. unfold mbind at 1. unfold M_bind, bind. rewrite Hp.
  unfold try_except, first_of, on_BridgeError, on_Exception, close. unfold_M.
  destruct (send _ _ w2) as [[result|e] w3]; [done|].
  by destruct e.
Qed.





(** *** [publish.py] *)

Lemma publish_parse_args c w :
  (∃ a, Publish.parse_args c w = (Return a, w)
        ∧ Publish.a_user a = match Publish.user c with
                           | Some u => Some u
                           | None => environ w !! "JMS_USR"
                           end
        ∧ Publish.a_body a = default "" (Publish.body c)
        ∧ Publish.a_file a = Publish.file c
        ∧ Publish.argv c = Accepted [])
  ∨ (∃ m, Publish.parse_args c w = (Raise (SystemExit 2), log (EvUsage m) w))
  ∨ (Publish.argv c = Help
     ∧ Publish.parse_args c w = (Raise (SystemExit 0), log (EvStdout [HelpText]) w)).
Proof.
  unfold Publish.parse_args, default_bridge, default_password. unfold_M.
  destruct (parse_known_cases (Publish.argv c)
              [("--url/-u", Publish.url c); ("--queue/-q", Publish.queue c)] w)
    as [(-> & Hr & _) | [[m ->] | [Hr ->]]]; [left | right; left; eauto | right; right; done].
  eexists. split; [reflexivity|]. done.
Qed.

Lemma publish_prepare c w :
  (∃ a user body w2,
      Publish.prepare c w = (Return (a, user, body), w2)
      ∧ Publish.parse_args c w = (Return a, w)
      ∧ resolve_body (Publish.a_body a) (Publish.a_file a) w = (Return body, w2)
      ∧ bridge w2 = bridge w ∧ interpreter w2 = interpreter w)
  ∨ (∃ m, Publish.prepare c w = (Raise (SystemExit 2), log (EvUsage m) w))
  ∨ (∃ m path, Publish.prepare c w = (Raise (OSError m), log (EvOpen path) w))
  ∨ (Publish.argv c = Help
     ∧ Publish.prepare c w = (Raise (SystemExit 0), log (EvStdout [HelpText]) w)).
Proof.
  destruct (prepare_with_cases (Publish.parse_args c) Publish.a_user
              "--user is required (or set JMS_USR)"
              Publish.a_body Publish.a_file) with (w := w)
    as [(a & user & body & w2 & H & Hp & _ & Hb & Hbr) | [H | [H | [Hh H]]]].
  - intros w0. destruct (publish_parse_args c w0) as [(a & Ha & _) | [Hm | [_ Hh]]]; eauto.
  - left. eauto 10.
  - right. left. exact H.
  - right. right. left. exact H.
  - right. right. right. split; [|exact H].
    destruct (publish_parse_args c w) as [(a & Ha & _) | [[m Hm] | [Hr _]]];
      [congruence | congruence | exact Hr].
Qed.

Lemma publish_main c w a user body w2 :
  Publish.prepare c w = (Return (a, user, body), w2) →
  Publish.main c w =
    match publish (init (Publish.a_bridge a) (60 # 1)%Q) (Publish.a_url a) user
                  (Publish.a_queue a) body (resolve_password (Publish.a_password a))
                  Publish.no_kwargs w2 with
    | (Return result, w3) =>
        (Return 0,
         log (EvStdout (str (or_else truthy (message_id result) (JString (Client.body result)))))
             (log EvClose w3))
    | (Raise e, w3) =>
        match e with
        | BridgeError _ m => (Return 1, log (EvStderr (Lit "Error: " :: str m)) (log EvClose w3))
        | _ => (Raise e, log EvClose w3)
        end
    end.
Proof.
  intros Hp. unfold Publish.main. unfold mbind at 1. unfold M_bind, bind. rewrite Hp.
  unfold try_except, on_BridgeError, with_client, finally, close. unfold_M.
  destruct (publish _ _ _ _ _ _ _ w2) as [[result|e] w3]; [done|].
  by destruct e.
Qed.



(** *** [request_reply.py] *)

Lemma request_reply_parse_args c w :
  (∃ a, RequestReply.parse_args c w = (Return a, w)
        ∧ RequestReply.a_user a = match RequestReply.user c with
                           | Some u => Some u
                           | None => environ w !! "JMS_USR"
                           end
        ∧ RequestReply.a_body a = default "" (RequestReply.body c)
        ∧ RequestReply.a_file a = RequestReply.file c
        ∧ RequestReply.a_timeout a = default 30000 (RequestReply.timeout c)
        ∧ RequestReply.argv c = Accepted [])
  ∨ (∃ m, RequestReply.parse_args c w = (Raise (SystemExit 2), log (EvUsage m) w))
  ∨ (RequestReply.argv c = Help
     ∧ RequestReply.parse_args c w = (Raise (SystemExit 0), log (EvStdout [HelpText]) w)).
Proof.
  unfold RequestReply.parse_args, default_bridge, default_password. unfold_M.
  destruct (parse_known_cases (RequestReply.argv c)
              [("--url/-u", RequestReply.url c); ("--queue/-q", RequestReply.queue c)] w)
    as [(-> & Hr & _) | [[m ->] | [Hr ->]]]; [left | right; left; eauto | right; right; done].
  eexists. split; [reflexivity|]. done.
Qed.

Lemma request_reply_prepare c w :
  (∃ a user body w2,
      RequestReply.prepare c w = (Return (a, user, body), w2)
      ∧ RequestReply.parse_args c w = (Return a, w)
      ∧ resolve_body (RequestReply.a_body a) (RequestReply.a_file a) w = (Return body, w2)
      ∧ bridge w2 = bridge w ∧ interpreter w2 = interpreter w)
  ∨ (∃ m, RequestReply.prepare c w = (Raise (SystemExit 2), log (EvUsage m) w))
  ∨ (∃ m path, RequestReply.prepare c w = (Raise (OSError m), log (EvOpen path) w))
  ∨ (RequestReply.argv c = Help
     ∧ RequestReply.prepare c w = (Raise (SystemExit 0), log (EvStdout [HelpText]) w)).
Proof.
  destruct (prepare_with_cases (RequestReply.parse_args c) RequestReply.a_user
              "--user is required (or set JMS_USR)"
              RequestReply.a_body RequestReply.a_file) with (w := w)
    as [(a & user & body & w2 & H & Hp & _ & Hb & Hbr) | [H | [H | [Hh H]]]].
  - intros w0. destruct (request_reply_parse_args c w0) as [(a & Ha & _) | [Hm | [_ Hh]]]; eauto.
  - left. eauto 10.
  - right. left. exact H.
  - right. right. left. exact H.
  - right. right. right. split; [|exact H].
    destruct (request_reply_parse_args c w) as [(a & Ha & _) | [[m Hm] | [Hr _]]];
      [congruence | congruence | exact Hr].
Qed.

Lemma request_reply_main c w a user body w2 :
  RequestReply.prepare c w = (Return (a, user, body), w2) →
  RequestReply.main c w =
    match request_reply (init (RequestReply.a_bridge a) (60 # 1)%Q) (RequestReply.a_url a) user
            (RequestReply.a_queue a) body (resolve_password (RequestReply.a_password a))
            (RequestReply.a_reply_queue a) (Some (RequestReply.a_timeout a))
            RequestReply.no_kwargs w2 with
    | (Return result, w3) =>
        (Return 0, log (EvStdout [Lit (Client.body result)]) (log EvClose w3))
    | (Raise e, w3) =>
        match e with
        | BridgeError _ m => (Return 1, log (EvStderr (Lit "Error: " :: str m)) (log EvClose w3))
        | _ => (Raise e, log EvClose w3)
        end
    end.
Proof.
  intros Hp. unfold RequestReply.main. unfold mbind at 1. unfold M_bind, bind. rewrite Hp.
  unfold try_except, on_BridgeError, with_client, finally, close. unfold_M.
  destruct (request_reply _ _ _ _ _ _ _ _ _ w2) as [[result|e] w3]; [done|].
  by destruct e.
Qed.



(** *** [get_stats.py] *)


Lemma get_stats_main c w a :
  GetStats.parse_args c w = (Return a, w) →
  GetStats.main c w =
    match get_stats (init (GetStats.a_bridge a) (60 # 1)%Q) (negb (GetStats.a_plain a)) w with
    | (Return stats, w3) =>
        (Return 0, log (EvStdout (GetStats.show (GetStats.a_plain a) stats)) (log EvClose w3))
    | (Raise e, w3) =>
        if is_Exception e
        then (Return 1, log (EvStderr (Lit "Error: " :: exn_str e)) (log EvClose w3))
        else (Raise e, log EvClose w3)
    end.
Proof.
  intros Hp. unfold GetStats.main. unfold mbind at 1. unfold M_bind, bind. rewrite Hp.
  unfold try_except, on_Exception, with_client, finally, close. unfold_M.
  destruct (get_stats _ _ w) as [[stats|e] w3]; [done|].
  by destruct e.
Qed.




(** ** The exit status of the scripts *)





(** Two behaviours that the properties above leave aside.  An error
    response whose JSON body is not an object makes [send] raise
    [AttributeError].  With no bridge listening, [ems_send.py] prints an
    [Error: ] line where [publish.py] ends in a traceback. *)

Example send_error_body_not_object :
  (send client (call false None None None)
        (answering (response 500 "application/json" "[1]"))).1
  = Raise (AttributeError "'list' object has no attribute 'get'").
Proof. vm_compute. reflexivity. Qed.

Example unreachable_bridge :
  (let r := run_script (EmsSend.main (ems_send_cli (Some "admin") (Some "Hello") None None))
                       unreachable in
   r.1 = 1 ∧ last (trace r.2) = Some (EvStderr [Lit "Error: "; Lit "Connection refused"]))
  ∧ (let r := run_script (Publish.main (publish_cli (Some "admin") (Some "Hello") None))
                         unreachable in
     r.1 = 1 ∧ last (trace r.2) = Some (EvTraceback (RequestException "Connection refused"))).
Proof. vm_compute. done. Qed.

(** ** The user *)

Lemma main_usage_error {X} (prepare : M X) (k : X → M Z) m w :
  prepare w = (Raise (SystemExit 2), log (EvUsage m) w) →
  run_script (prepare ≫= k) w = (2, log (EvUsage m) w).
Proof. intros H. unfold run_script, mbind, M_bind, bind. by rewrite H. Qed.

Lemma main_help {X} (prepare : M X) (k : X → M Z) w :
  prepare w = (Raise (SystemExit 0), log (EvStdout [HelpText]) w) →
  run_script (prepare ≫= k) w = (0, log (EvStdout [HelpText]) w).
Proof. intros H. unfold run_script, mbind, M_bind, bind. by rewrite H. Qed.

Lemma prepare_with_missing_user {X} (parse : M X) a_user msg a_body a_file w :
  environ w !! "JMS_USR" = None →
  (∀ a, parse w = (Return a, w) → a_user a = None) →
  (∃ a, parse w = (Return a, w))
  ∨ (∃ m, parse w = (Raise (SystemExit 2), log (EvUsage m) w)) →
  ∃ m, prepare_with parse a_user msg a_body a_file w
       = (Raise (SystemExit 2), log (EvUsage m) w).
Proof.
  intros He Hu [[a Ha] | [m Hm]]; unfold prepare_with, mbind, M_bind, bind.
  - rewrite Ha, (Hu a Ha), resolve_user_missing by done. by eexists.
  - rewrite Hm. by eexists.
Qed.

(** C9, as amended.  In each of the three sending scripts, a command line
    without [--user] under an environment without JMS_USR, in which
    [argparse] does not come to [-h] or [--help], ends in a usage error:
    the exit status is 2, and the only effect of the run is the usage
    message, so no HTTP request is attempted.  This holds whatever else the
    command line has: other options missing, unrecognized arguments, an
    option that [argparse] refuses. *)
Theorem missing_user_is_usage_error :
  (∀ c w, EmsSend.argv c ≠ Help → EmsSend.user c = None → environ w !! "JMS_USR" = None →
     ∃ msg, (run_script (EmsSend.main c) w).1 = 2
            ∧ trace (run_script (EmsSend.main c) w).2 = (trace w ++ [EvUsage msg])%list)
  ∧ (∀ c w, Publish.argv c ≠ Help → Publish.user c = None → environ w !! "JMS_USR" = None →
       ∃ msg, (run_script (Publish.main c) w).1 = 2
              ∧ trace (run_script (Publish.main c) w).2 = (trace w ++ [EvUsage msg])%list)
  ∧ (∀ c w, RequestReply.argv c ≠ Help → RequestReply.user c = None →
            environ w !! "JMS_USR" = None →
       ∃ msg, (run_script (RequestReply.main c) w).1 = 2
              ∧ trace (run_script (RequestReply.main c) w).2 = (trace w ++ [EvUsage msg])%list).
Proof.
  split_and!; intros c w Hh Hu He.
  - destruct (prepare_with_missing_user (EmsSend.parse_args c) EmsSend.a_user
                "--user is required (or set JMS_USR environment variable)"
                EmsSend.a_body EmsSend.a_file w He) as [m Hm].
    + intros a Ha. destruct (ems_send_parse_args c w) as [(a' & Ha' & Hua & _) | [[m Hm] | [_ Hm]]];
        [|congruence..]. rewrite Ha in Ha'. simplify_eq. by rewrite Hua, Hu.
    + destruct (ems_send_parse_args c w) as [(a & Ha & _) | [Hm | [Hr _]]]; eauto. done.
    + exists m. unfold EmsSend.main. by rewrite (main_usage_error _ _ m w Hm).
  - destruct (prepare_with_missing_user (Publish.parse_args c) Publish.a_user
                "--user is required (or set JMS_USR)"
                Publish.a_body Publish.a_file w He) as [m Hm].
    + intros a Ha. destruct (publish_parse_args c w) as [(a' & Ha' & Hua & _) | [[m Hm] | [_ Hm]]];
        [|congruence..]. rewrite Ha in Ha'. simplify_eq. by rewrite Hua, Hu.
    + destruct (publish_parse_args c w) as [(a & Ha & _) | [Hm | [Hr _]]]; eauto. done.
    + exists m. unfold Publish.main. by rewrite (main_usage_error _ _ m w Hm).
  - destruct (prepare_with_missing_user (RequestReply.parse_args c) RequestReply.a_user
                "--user is required (or set JMS_USR)"
                RequestReply.a_body RequestReply.a_file w He) as [m Hm].
    + intros a Ha. destruct (request_reply_parse_args c w) as [(a' & Ha' & Hua & _) | [[m Hm] | [_ Hm]]];
        [|congruence..]. rewrite Ha in Ha'. simplify_eq. by rewrite Hua, Hu.
    + destruct (request_reply_parse_args c w) as [(a & Ha & _) | [Hm | [Hr _]]]; eauto. done.
    + exists m. unfold RequestReply.main. by rewrite (main_usage_error _ _ m w Hm).
Qed.

Lemma missing_user_is_usage_error_witness :
  let c := request_reply_cli None (Some "ping") None None in
  let w := answering (response 200 "text/plain" "pong") in
  RequestReply.argv c ≠ Help
  ∧ RequestReply.user c = None
  ∧ environ w !! "JMS_USR" = None
  ∧ ∃ msg, (run_script (RequestReply.main c) w).1 = 2
           ∧ trace (run_script (RequestReply.main c) w).2 = (trace w ++ [EvUsage msg])%list.
Proof.
  intros c w.
  assert (Hh : RequestReply.argv c ≠ Help) by discriminate.
  split_and!; [exact Hh | reflexivity | reflexivity |].
  exact (proj2 (proj2 missing_user_is_usage_error) c w Hh eq_refl eq_refl).
Defined.

(** C9, counterexample.  [ems_send.py -h] and [publish.py --help],
    without [--user] and without JMS_USR in the environment: [argparse]
    writes the help on standard output and the exit status is 0; there is
    no usage error. *)
Lemma missing_user_is_usage_error_counterexample :
  let w := answering (response 200 "text/plain" "") in
  (let c := {| EmsSend.argv := Help;
               EmsSend.bridge := None; EmsSend.url := None; EmsSend.user := None;
               EmsSend.password := None; EmsSend.queue := None; EmsSend.body := None;
               EmsSend.file := None; EmsSend.publish_only := false;
               EmsSend.reply_queue := None; EmsSend.timeout := None;
               EmsSend.correlation_id := None; EmsSend.plain := false;
               EmsSend.timeout_sec := None |} in
   EmsSend.user c = None ∧ environ w !! "JMS_USR" = None
   ∧ run_script (EmsSend.main c) w = (0, log (EvStdout [HelpText]) w))
  ∧ (let c := {| Publish.argv := Help;
                 Publish.bridge := None; Publish.url := None; Publish.user := None;
                 Publish.password := None; Publish.queue := None; Publish.body := None;
                 Publish.file := None |} in
     Publish.user c = None ∧ environ w !! "JMS_USR" = None
     ∧ run_script (Publish.main c) w = (0, log (EvStdout [HelpText]) w)).
Proof. intros w. split; split_and!; reflexivity. Qed.


(** ** The body *)

Lemma send_trace self sa w :
  ∃ r, send self sa w = (r, log (EvHttp (send_request self sa)) w).
Proof. rewrite send_effect. by eexists. Qed.




















(** ** The two conveniences *)

Lemma publish_is_send self jms_url user queue body password kwargs :
  publish self jms_url user queue body password kwargs =
  send self
    {| jms_url := jms_url; user := user; queue := queue; data := body;
       password := password; reply_queue := pk_reply_queue kwargs;
       publish_only := true; timeout_ms := pk_timeout_ms kwargs;
       correlation_id := pk_correlation_id kwargs; headers := pk_headers kwargs;
       use_json := pk_use_json kwargs |}.
Proof. reflexivity. Qed.


Lemma request_reply_default_timeout : timeout_or_default None = 30000.
Proof. reflexivity. Qed.

(** Away from a timeout of zero, [request_reply] is what the
    specification says. *)
Lemma request_reply_meets_spec self jms_url user queue body password reply_queue timeout_ms kwargs :
  timeout_ms ≠ Some 0 →
  request_reply self jms_url user queue body password reply_queue timeout_ms kwargs
  = spec_request_reply self jms_url user queue body password reply_queue timeout_ms kwargs.
Proof.
  intros Hz. unfold request_reply, spec_request_reply, timeout_or_default, spec_timeout.
  destruct timeout_ms as [t|]; [|done].
  destruct (Z.eqb_spec t 0) as [->|]; [by destruct Hz | done].
Qed.

(** C7, at the failing input.  [request_reply] with [timeout_ms=0]
    transmits JMS-TIMEOUT: 30000, where [send] with [publish_only] unset and
    the same timeout, and the specification's [request_reply], transmit
    JMS-TIMEOUT: 0.  On the command line, [request_reply.py --timeout 0]
    transmits 30000 and [ems_send.py --timeout 0] transmits 0. *)
Theorem request_reply_zero_timeout :
  let w := answering (response 200 "text/plain" "pong") in
  let code :=
    request_reply client "tcp://localhost:7222" "admin" "queue.test" "Hello"
      None None (Some 0) no_kwargs in
  let spec :=
    spec_request_reply client "tcp://localhost:7222" "admin" "queue.test" "Hello"
      None None (Some 0) no_kwargs in
  first_request_header "JMS-TIMEOUT" (trace (code w).2) = Some "30000"
  ∧ first_request_header "JMS-TIMEOUT" (trace (spec w).2) = Some "0"
  ∧ first_request_header "JMS-TIMEOUT" (trace (send client (call false None (Some 0) None) w).2)
    = Some "0"
  ∧ code w ≠ spec w
  ∧ first_request_header "JMS-TIMEOUT"
      (trace (run_script (RequestReply.main
                            (request_reply_cli (Some "admin") (Some "ping") None (Some 0))) w).2)
    = Some "30000"
  ∧ first_request_header "JMS-TIMEOUT"
      (trace (run_script (EmsSend.main
                            (ems_send_cli (Some "admin") (Some "ping") None (Some 0))) w).2)
    = Some "0".
Proof.
  split_and!; try (vm_compute; reflexivity).
  intros H. apply (f_equal (fun r => first_request_header "JMS-TIMEOUT" (trace r.2))) in H.
  vm_compute in H. discriminate.
Qed.

(** * Further properties of the client *)

Import Observe.

(** ** The bridge URL *)

Lemma append_slash_nonempty t : t +:+ "/" ≠ "".
Proof. by destruct t. Qed.

Lemma rstrip_slash_no_trailing s : ∀ t, rstrip_slash s ≠ t +:+ "/".
Proof.
  induction s as [|c r IH]; intros t; simpl.
  - intros H. by apply (append_slash_nonempty t).
  - destruct (Ascii.eqb c "/" && String.eqb (rstrip_slash r) "") eqn:Hc.
    + intros H. by apply (append_slash_nonempty t).
    + destruct t as [|c' t']; intros H.
      * change (String c (rstrip_slash r) = "/") in H. injection H as -> Hr.
        by rewrite Hr in Hc.
      * change (String c (rstrip_slash r) = String c' (t' +:+ "/")) in H.
        injection H as _ Hr. by apply (IH t').
Qed.

Lemma rstrip_slash_append s : rstrip_slash (s +:+ "/") = rstrip_slash s.
Proof. induction s as [|c r IH]; simpl; [done|]. by rewrite IH. Qed.

Lemma rstrip_slash_fixed s : (∀ t, s ≠ t +:+ "/") → rstrip_slash s = s.
Proof.
  induction s as [|c r IH]; intros H; simpl; [done|].
  rewrite IH.
  - destruct (Ascii.eqb_spec c "/") as [->|]; [|done]. simpl.
    destruct (String.eqb_spec r "") as [->|]; [|done].
    by destruct (H "").
  - intros t ->. by apply (H (String c t)).
Qed.

(** X1.  [__init__] strips every trailing slash of the bridge URL: the
    stored URL never ends with a slash, a URL given with one more trailing
    slash gives the same client, and a URL without a trailing slash is kept
    as it is.  So the POST of [send] goes to the URL followed by exactly one
    slash. *)
Theorem init_strips_trailing_slashes (url : string) (timeout : Q) :
  (∀ t, base_url (init url timeout) ≠ t +:+ "/")
  ∧ init (url +:+ "/") timeout = init url timeout
  ∧ ((∀ t, url ≠ t +:+ "/") → base_url (init url timeout) = url)
  ∧ (∀ a, req_url (send_request (init url timeout) a) = rstrip_slash url +:+ "/"
          ∧ req_url (send_request (init (url +:+ "/") timeout) a)
            = req_url (send_request (init url timeout) a)).
Proof.
  split_and!.
  - apply rstrip_slash_no_trailing.
  - unfold init. by rewrite rstrip_slash_append.
  - apply rstrip_slash_fixed.
  - intros a. unfold send_request, init. simpl. by rewrite rstrip_slash_append.
Qed.

Lemma init_strips_trailing_slashes_witness :
  (∀ t, "http://localhost:8080" ≠ t +:+ "/")
  ∧ base_url (init "http://localhost:8080" (60 # 1)%Q) = "http://localhost:8080"
  ∧ base_url (init "http://localhost:8080//" (60 # 1)%Q) = "http://localhost:8080".
Proof.
  assert (H : ∀ t, "http://localhost:8080" ≠ t +:+ "/").
  { intros t Ht.
    apply (rstrip_slash_no_trailing "http://localhost:8080" t). exact Ht. }
  split_and!; [exact H | | reflexivity].
  exact (proj1 (proj2 (proj2 (init_strips_trailing_slashes "http://localhost:8080" (60 # 1)%Q))) H).
Defined.

(** ** The headers, name by name *)

Lemma set_if_lookup c k v d : set_if c k v d !! k = if c then Some v else d !! k.
Proof. unfold set_if. destruct c; [by rewrite lookup_insert_eq|done]. Qed.

Lemma set_opt_lookup k o d :
  set_opt k o d !! k = match given o with Some v => Some v | None => d !! k end.
Proof.
  unfold set_opt, given. destruct o as [v|]; [|done].
  rewrite set_if_lookup. by destruct (PyStr.truthy v).
Qed.

Ltac header_lookup :=
  repeat first
    [ rewrite set_opt_lookup
    | rewrite lookup_insert_eq
    | rewrite set_opt_lookup_ne by done
    | rewrite lookup_insert_ne by done
    | rewrite lookup_empty ].

Lemma fixed_headers_lookups (a : SendArgs) :
  fixed_headers a !! "JMS-URL" = Some (jms_url a)
  ∧ fixed_headers a !! "JMS-USR" = Some (user a)
  ∧ fixed_headers a !! "JMS-QU1" = Some (queue a)
  ∧ fixed_headers a !! "JMS-PSW" = given (password a)
  ∧ fixed_headers a !! "JMS-PUBLISH-ONLY" = (if publish_only a then Some "YES" else None)
  ∧ fixed_headers a !! "JMS-QU2" = (if publish_only a then None else given (reply_queue a))
  ∧ fixed_headers a !! "JMS-TIMEOUT"
    = (if publish_only a then None else pretty <$> timeout_ms a)
  ∧ fixed_headers a !! "JMS-CORRELATION-ID" = given (correlation_id a)
  ∧ fixed_headers a !! "Content-Type"
    = (if use_json a then Some "application/json" else None)
  ∧ fixed_headers a !! "Accept" = (if use_json a then Some "application/json" else None)
  ∧ (∀ k, k ∉ fixed_names → fixed_headers a !! k = None).
Proof.
  unfold fixed_headers.
  split_and!.
  1-10: destruct (use_json a), (publish_only a), (timeout_ms a); header_lookup;
    try done; repeat (destruct (given _); try done).
  intros k Hk. unfold fixed_names in Hk.
  repeat (apply not_elem_of_cons in Hk as [? Hk]).
  destruct (use_json a), (publish_only a), (timeout_ms a); header_lookup; done.
Qed.



(** X3.  [send] transmits no header of its own invention: every name in
    the headers of the request is one of the ten fixed names or a name of
    the caller's extra headers, and a name the caller supplies is always
    there. *)
Theorem send_headers_names (a : SendArgs) (k : string) :
  (is_Some (send_headers a !! k) →
   k ∈ fixed_names ∨ is_Some (default ∅ (headers a) !! k))
  ∧ (is_Some (default ∅ (headers a) !! k) → is_Some (send_headers a !! k)).
Proof.
  split.
  - intros Hk. destruct (default ∅ (headers a) !! k) as [v|] eqn:He; [right; eauto|left].
    rewrite send_headers_fixed in Hk by done.
    destruct (decide (k ∈ fixed_names)) as [|Hn]; [done|].
    rewrite (proj2 (proj2 (proj2 (proj2 (proj2 (proj2 (proj2 (proj2 (proj2 (proj2
               (fixed_headers_lookups a)))))))))) k Hn) in Hk.
    by destruct Hk.
  - intros [v Hv]. destruct (headers a) as [extra|] eqn:He; simpl in Hv.
    + rewrite (send_headers_extra a extra k v He Hv). eauto.
    + by rewrite lookup_empty in Hv.
Qed.

Lemma send_headers_names_witness :
  let a := call true None None (Some {[ "JMSPriority" := "4" ]}) in
  is_Some (default ∅ (headers a) !! "JMSPriority")
  ∧ is_Some (send_headers a !! "JMSPriority")
  ∧ ("JMSPriority" ∈ fixed_names ∨ is_Some (default ∅ (headers a) !! "JMSPriority")).
Proof.
  intros a.
  assert (He : is_Some (default ∅ (headers a) !! "JMSPriority")) by (by eexists).
  pose proof (send_headers_names a "JMSPriority") as [H1 H2].
  split_and!; [exact He | exact (H2 He) | exact (H1 (H2 He))].
Defined.

(** ** One exchange for each call *)

Lemma events_since_app w w' out :
  trace w' = (trace w ++ out)%list → events_since w w' = out.
Proof. intros H. unfold events_since. rewrite H. apply drop_app_length. Qed.

Lemma events_since_log w e : events_since w (log e w) = [e].
Proof. by apply events_since_app. Qed.



(** ** The outcomes of [send] *)

Lemma SendResult_init_message_id status body m :
  message_id (SendResult_init status body m) = JString ""
  ∨ truthy (message_id (SendResult_init status body m)) = true.
Proof.
  unfold SendResult_init, or_else. simpl. destruct (truthy m) eqn:Hm; [by right|by left].
Qed.

(** X5.  A result that [send] returns comes from a response whose status
    is outside 400 to 599; it carries that status and the raw text of the
    response, and its message id is the empty string or a truthy value,
    never [None]. *)
Theorem send_returns (self : HttpToEmsClient) (a : SendArgs) (w w' : world) (r : SendResult) :
  send self a w = (Return r, w') →
  ∃ resp, bridge w (send_request self a) = Got resp
          ∧ ¬ (400 ≤ status_code resp < 600)
          ∧ status r = status_code resp
          ∧ body r = text resp
          ∧ (message_id r = JString "" ∨ truthy (message_id r) = true)
          ∧ message_id r ≠ JNull.
Proof.
  rewrite send_effect. intros H. injection H as H _.
  destruct (bridge w (send_request self a)) as [resp|msg]; [|done].
  exists resp. split; [done|].
  destruct (ok resp) eqn:Hok.
  - assert (Hsc : ¬ (400 ≤ status_code resp < 600)).
    { intros Hsc. apply ok_false in Hsc. congruence. }
    rewrite (send_result_success _ _ _ Hok) in H. unfold get_method in H.
    assert (Hinit : ∃ m, r = SendResult_init (status_code resp) (text resp) m).
    { repeat case_match; simplify_eq; eauto. }
    destruct Hinit as [m ->].
    pose proof (SendResult_init_message_id (status_code resp) (text resp) m) as Hm.
    split_and!; try done.
    intros Hn. rewrite Hn in Hm. by destruct Hm.
  - unfold send_result, loads, get_method in H. rewrite Hok in H. simpl in H.
    repeat case_match; simplify_eq.
Qed.

Lemma send_returns_witness :
  let w := answering (response 204 "application/json" "") in
  let a := call true None None None in
  ∃ r, send client a w = (Return r, (send client a w).2)
       ∧ status r = 204 ∧ body r = "" ∧ message_id r = JString "".
Proof.
  intros w a.
  exists {| status := 204; body := ""; message_id := JString "" |}.
  assert (H : send client a w
              = (Return {| status := 204; body := ""; message_id := JString "" |},
                 (send client a w).2)) by (vm_compute; reflexivity).
  destruct (send_returns client a w _ _ H) as (resp & Hb & _ & Hs & Hbody & _).
  split_and!; [exact H | reflexivity | reflexivity | reflexivity].
Defined.



(** X7.  On a response with a status outside 400 to 599, a call that is
    not publish-only, or whose response is not sent as application/json,
    never decodes the body: [send] returns the status, the raw text and the
    empty message id, whatever the text is. *)
Theorem send_raw_result (self : HttpToEmsClient) (a : SendArgs) (w : world) (resp : Response) :
  bridge w (send_request self a) = Got resp →
  ¬ (400 ≤ status_code resp < 600) →
  publish_only a = false ∨ is_json resp = false →
  (send self a w).1
  = Return {| status := status_code resp; body := text resp; message_id := JString "" |}.
Proof.
  intros Hb Hsc Hraw.
  assert (Hok : ok resp = true).
  { destruct (ok resp) eqn:E; [done|]. apply ok_false in E. by destruct Hsc. }
  rewrite send_effect, Hb. simpl. rewrite (send_result_success _ _ _ Hok).
  destruct Hraw as [-> | ->]; [done|]. by rewrite andb_false_r.
Qed.

Lemma send_raw_result_witness :
  let resp := response 200 "application/json" "{not json" in
  let w := answering resp in
  let a := call false None (Some 5000) None in
  bridge w (send_request client a) = Got resp
  ∧ ¬ (400 ≤ status_code resp < 600)
  ∧ publish_only a = false
  ∧ (send client a w).1
    = Return {| status := 200; body := "{not json"; message_id := JString "" |}.
Proof.
  intros resp w a.
  assert (Hsc : ¬ (400 ≤ status_code resp < 600)) by (simpl; lia).
  split_and!; [reflexivity | exact Hsc | reflexivity |].
  exact (send_raw_result client a w resp eq_refl Hsc (or_introl eq_refl)).
Defined.

(** X8.  A body sent as application/json that decodes to something other
    than an object (an array, a string, a number, true, false, null) makes
    [send] raise [AttributeError], both on an error response and on the
    response to a publish-only call: only a decoding failure is caught. *)
Theorem send_body_not_object (self : HttpToEmsClient) (a : SendArgs) (w : world)
    (resp : Response) (v : json) :
  bridge w (send_request self a) = Got resp →
  is_json resp = true →
  json_loads (interpreter w) (text resp) = Loaded v →
  (∀ members, v ≠ JObject members) →
  400 ≤ status_code resp < 600 ∨ publish_only a = true →
  (send self a w).1
  = Raise (AttributeError ("'" +:+ type_name v +:+ "' object has no attribute 'get'")).
Proof.
  intros Hb Hj Hl Hv Hcase. rewrite send_effect, Hb. simpl.
  destruct (ok resp) eqn:Hok.
  - destruct Hcase as [Hsc | Hp]; [apply ok_false in Hsc; congruence|].
    rewrite (send_result_success _ _ _ Hok), Hp, Hj, Hl. simpl.
    by rewrite get_method_other.
  - destruct (send_result_error (interpreter w) (publish_only a) resp Hok) as [_ Hjson].
    destruct (Hjson Hj) as (_ & _ & Hother & _). exact (Hother v Hl Hv).
Qed.

Lemma send_body_not_object_witness :
  let resp := response 200 "application/json" "null" in
  let w := answering resp in
  let a := call true None None None in
  bridge w (send_request client a) = Got resp
  ∧ is_json resp = true
  ∧ json_loads (interpreter w) (text resp) = Loaded JNull
  ∧ publish_only a = true
  ∧ (send client a w).1
    = Raise (AttributeError "'NoneType' object has no attribute 'get'").
Proof.
  intros resp w a.
  assert (Hj : is_json resp = true) by (vm_compute; reflexivity).
  assert (Hl : json_loads (interpreter w) (text resp) = Loaded JNull) by (vm_compute; reflexivity).
  split_and!; [reflexivity | exact Hj | exact Hl | reflexivity |].
  refine (send_body_not_object client a w resp JNull eq_refl Hj Hl _ (or_intror eq_refl)).
  intros members. discriminate.
Defined.

(** ** The content type of a response *)

Lemma strip_prefix_app p s : strip_prefix p (p +:+ s) = Some s.
Proof. induction p as [|c p IH]; simpl; [done|]. by rewrite Ascii.eqb_refl. Qed.

Lemma contains_app needle pre post : contains needle (pre +:+ needle +:+ post) = true.
Proof.
  induction pre as [|c pre IH].
  - change ("" +:+ needle +:+ post) with (needle +:+ post).
    destruct (needle +:+ post) eqn:E; simpl; rewrite <- E, strip_prefix_app; done.
  - change (String c pre +:+ needle +:+ post) with (String c (pre +:+ needle +:+ post)).
    simpl. rewrite IH. by destruct (strip_prefix needle _).
Qed.

Lemma headers_get_absent hs name d :
  Forall (fun kv => lower kv.1 ≠ lower name) hs → headers_get hs name d = d.
Proof.
  induction 1 as [|[k v] hs Hk _ IH]; simpl; [done|].
  destruct (String.eqb_spec (lower k) (lower name)); [done|]. exact IH.
Qed.

(** X9.  [send] takes a response for JSON when its Content-Type contains
    application/json anywhere, so a parameter such as a charset does not
    matter; a response without a Content-Type counts as text/plain and is
    not JSON. *)
Theorem is_json_detection (resp : Response) :
  (∀ pre post,
      headers_get (resp_headers resp) "Content-Type" "text/plain"
      = pre +:+ "application/json" +:+ post →
      is_json resp = true)
  ∧ (Forall (fun kv => lower kv.1 ≠ "content-type") (resp_headers resp) →
     is_json resp = false).
Proof.
  split.
  - intros pre post H. unfold is_json. rewrite H. apply contains_app.
  - intros H. unfold is_json. by rewrite headers_get_absent.
Qed.

Lemma is_json_detection_witness :
  is_json (response 200 "application/json; charset=utf-8" "{}") = true
  ∧ is_json {| status_code := 200; reason := "OK"; resp_url := "";
               resp_headers := [("Content-Length", "2")]; text := "{}" |} = false.
Proof.
  split.
  - exact (proj1 (is_json_detection (response 200 "application/json; charset=utf-8" "{}"))
             "" "; charset=utf-8" eq_refl).
  - refine (proj2 (is_json_detection _) _).
    repeat constructor. simpl. discriminate.
Defined.

(** ** [get_stats] *)

(** X10.  Whatever the outcome, [get_stats] makes exactly one request, a
    GET of the bridge URL followed by /metrics, without a body; it asks for
    application/json with [use_json] and passes no headers at all
    without. *)
Theorem get_stats_one_request (self : HttpToEmsClient) (use_json : bool) (w : world) :
  ∃ r, events_since w (get_stats self use_json w).2 = [EvHttp r]
       ∧ req_method r = "GET"
       ∧ req_url r = base_url self +:+ "/metrics"
       ∧ req_data r = None
       ∧ req_headers r
         = (if use_json then Some {[ "Accept" := "application/json" ]} else None)
       ∧ req_timeout r = timeout self.
Proof.
  rewrite get_stats_effect. simpl. exists (stats_request self use_json).
  split; [apply events_since_log|]. split_and!; try done.
  unfold stats_request, set_if, dict_truthy. simpl. destruct use_json; simpl.
  - rewrite bool_decide_eq_false_2; [done|]. apply insert_non_empty.
  - by rewrite bool_decide_eq_true_2.
Qed.



(** ** The two conveniences *)

(** X12.  On a publish-only call the reply queue and the reply timeout
    play no part: [send] with [publish_only] set behaves the same whatever
    [reply_queue] and [timeout_ms] are, so [publish] ignores the two when
    they come in its keyword arguments. *)
Theorem publish_only_ignores_reply_arguments (self : HttpToEmsClient) (a : SendArgs)
    (reply_queue' : option string) (timeout_ms' : option Z) :
  publish_only a = true →
  send self a
  = send self
      {| jms_url := jms_url a; user := user a; queue := queue a; data := data a;
         password := password a; reply_queue := reply_queue';
         publish_only := true; timeout_ms := timeout_ms';
         correlation_id := correlation_id a; headers := headers a;
         use_json := use_json a |}.
Proof. intros Hp. destruct a. simpl in *. subst. reflexivity. Qed.

Lemma publish_only_ignores_reply_arguments_witness :
  publish_only (call true None None None) = true
  ∧ send client (call true None None None)
    = send client (call true (Some "queue.reply") (Some 5000) None).
Proof.
  split; [reflexivity|].
  exact (publish_only_ignores_reply_arguments client (call true None None None)
           (Some "queue.reply") (Some 5000) eq_refl).
Defined.



(** * Further properties of the scripts *)

(** ** The user, the body and the required options *)

(** X14.  The user of a sending script is [--user] when that is given and
    not empty, and otherwise the value of JMS_USR when that is set and not
    empty; in every other case the script ends in the usage error.  The
    user that reaches the client is never empty, and finding it has no
    effect. *)
Theorem resolve_user_choice (args_user : option string) (msg : string) (w : world) :
  (∀ user w',
      resolve_user args_user msg w = (Return user, w') ↔
      w' = w ∧ user ≠ ""
      ∧ (args_user = Some user
         ∨ given args_user = None ∧ environ w !! "JMS_USR" = Some user))
  ∧ (given args_user = None → given (environ w !! "JMS_USR") = None →
     resolve_user args_user msg w = (Raise (SystemExit 2), log (EvUsage msg) w)).
Proof.
  assert (Ht : ∀ s, PyStr.truthy s = true ↔ s ≠ "").
  { intros s. unfold PyStr.truthy. destruct (String.eqb_spec s ""); simpl; split; congruence. }
  unfold resolve_user, or_else, given, getenv, parser_error, mbind, M_bind, bind, mret, M_ret, ret.
  split.
  - intros user w'.
    destruct args_user as [u|]; simpl; [destruct (PyStr.truthy u) eqn:Hu|]; simpl;
      rewrite ?Hu;
      try (destruct (environ w !! "JMS_USR") as [e|] eqn:He; simpl;
           [destruct (PyStr.truthy e) eqn:Hte|]; rewrite ?Hte);
      (split;
       [ intros H; simplify_eq; split_and!; solve [done | by apply Ht | eauto]
       | intros (-> & Hne & [H | [H1 H2]]); simplify_eq; try done;
         apply Ht in Hne; congruence ]).
  - intros Hu He. destruct args_user as [u|]; simpl in *.
    + destruct (PyStr.truthy u); [done|].
      destruct (environ w !! "JMS_USR") as [e|]; [|done]. simpl in He.
      by destruct (PyStr.truthy e).
    + destruct (environ w !! "JMS_USR") as [e|]; [|done]. simpl in He.
      by destruct (PyStr.truthy e).
Qed.

Lemma resolve_user_choice_witness :
  let w := {| environ := {[ "JMS_USR" := "fromenv" ]}; stdin_isatty := true;
              stdin_text := ""; files := no_file;
              bridge := fun _ => Failed "Connection refused";
              interpreter := cpython; trace := [] |} in
  given (Some "") = None
  ∧ environ w !! "JMS_USR" = Some "fromenv"
  ∧ resolve_user (Some "") "no user" w = (Return "fromenv", w)
  ∧ given (environ unreachable !! "JMS_USR") = None
  ∧ resolve_user (Some "") "no user" unreachable
    = (Raise (SystemExit 2), log (EvUsage "no user") unreachable).
Proof.
  intros w.
  assert (He : environ w !! "JMS_USR" = Some "fromenv") by (vm_compute; reflexivity).
  split_and!; [reflexivity | exact He | | reflexivity |].
  - apply (proj1 (resolve_user_choice (Some "") "no user" w) "fromenv" w).
    split_and!; [reflexivity | discriminate | right; split; [reflexivity | exact He]].
  - exact (proj2 (resolve_user_choice (Some "") "no user" unreachable) eq_refl eq_refl).
Defined.



Lemma check_required_missing required w :
  missing required ≠ [] →
  check_required required w
  = (Raise (SystemExit 2),
     log (EvUsage ("the following arguments are required: "
                   +:+ String.concat ", " (missing required))) w).
Proof. unfold check_required. by destruct (missing required). Qed.

Lemma missing_url_queue (url queue : option string) :
  url = None ∨ queue = None →
  missing [("--url/-u", url); ("--queue/-q", queue)] ≠ [].
Proof. intros [-> | ->]; [|destruct url]; done. Qed.

(** X16.  In each sending script a command line that [argparse] reads
    to its end, without [--url] or without [--queue], ends in the usage
    error that names the missing options, with exit status 2 and no other
    effect, whatever the other options, the unrecognized arguments and the
    environment are.  (A command line on which [argparse] comes to [-h] or
    to an option that it refuses ends there, before the required options
    are checked.) *)
Theorem required_options :
  (∀ c w extras,
     EmsSend.argv c = Accepted extras →
     EmsSend.url c = None ∨ EmsSend.queue c = None →
     run_script (EmsSend.main c) w
     = (2, log (EvUsage ("the following arguments are required: "
                         +:+ String.concat ", "
                               (missing [("--url/-u", EmsSend.url c);
                                         ("--queue/-q", EmsSend.queue c)]))) w))
  ∧ (∀ c w extras,
       Publish.argv c = Accepted extras →
       Publish.url c = None ∨ Publish.queue c = None →
       run_script (Publish.main c) w
       = (2, log (EvUsage ("the following arguments are required: "
                           +:+ String.concat ", "
                                 (missing [("--url/-u", Publish.url c);
                                           ("--queue/-q", Publish.queue c)]))) w))
  ∧ (∀ c w extras,
       RequestReply.argv c = Accepted extras →
       RequestReply.url c = None ∨ RequestReply.queue c = None →
       run_script (RequestReply.main c) w
       = (2, log (EvUsage ("the following arguments are required: "
                           +:+ String.concat ", "
                                 (missing [("--url/-u", RequestReply.url c);
                                           ("--queue/-q", RequestReply.queue c)]))) w)).
Proof.
  split_and!; intros c w extras Hr H; apply missing_url_queue in H.
  - unfold run_script, EmsSend.main, EmsSend.prepare, EmsSend.parse_args, parse_known,
      default_bridge, default_password, getenv, mbind, M_bind, bind, mret, M_ret, ret.
    by rewrite Hr, (check_required_missing _ w H).
  - unfold run_script, Publish.main, Publish.prepare, Publish.parse_args, parse_known,
      default_bridge, default_password, getenv, mbind, M_bind, bind, mret, M_ret, ret.
    by rewrite Hr, (check_required_missing _ w H).
  - unfold run_script, RequestReply.main, RequestReply.prepare, RequestReply.parse_args,
      parse_known, default_bridge, default_password, getenv, mbind, M_bind, bind, mret,
      M_ret, ret.
    by rewrite Hr, (check_required_missing _ w H).
Qed.

Lemma required_options_witness :
  let c := {| Publish.argv := Accepted ["--verbose"];
              Publish.bridge := None; Publish.url := None; Publish.user := Some "admin";
              Publish.password := None; Publish.queue := None; Publish.body := None;
              Publish.file := None |} in
  Publish.argv c = Accepted ["--verbose"]
  ∧ (Publish.url c = None ∨ Publish.queue c = None)
  ∧ run_script (Publish.main c) unreachable
    = (2, log (EvUsage "the following arguments are required: --url/-u, --queue/-q")
            unreachable).
Proof.
  intros c. split_and!; [reflexivity | by left |].
  exact (proj1 (proj2 required_options) c unreachable ["--verbose"] eq_refl (or_introl eq_refl)).
Defined.

(** ** The effects of a run, in order *)

Lemma prepare_with_shape {X : Type} (parse : M X) (a_user : X → option string) (msg : string)
    (a_body : X → string) (a_file : X → option string) (w : world) :
  (∀ w, (∃ a, parse w = (Return a, w))
        ∨ (∃ m, parse w = (Raise (SystemExit 2), log (EvUsage m) w))
        ∨ parse w = (Raise (SystemExit 0), log (EvStdout [HelpText]) w)) →
  (∃ a user body w2 pre,
      prepare_with parse a_user msg a_body a_file w = (Return (a, user, body), w2)
      ∧ body_read pre
      ∧ trace w2 = (trace w ++ pre)%list
      ∧ bridge w2 = bridge w)
  ∨ (∃ m, prepare_with parse a_user msg a_body a_file w
          = (Raise (SystemExit 2), log (EvUsage m) w))
  ∨ (∃ m path, prepare_with parse a_user msg a_body a_file w
               = (Raise (OSError m), log (EvOpen path) w))
  ∨ (parse w = (Raise (SystemExit 0), log (EvStdout [HelpText]) w)
     ∧ prepare_with parse a_user msg a_body a_file w
       = (Raise (SystemExit 0), log (EvStdout [HelpText]) w)).
Proof.
  intros parse_cases. unfold prepare_with, mbind, M_bind, bind.
  destruct (parse_cases w) as [[a Ha] | [[m Hm] | Hh]];
    [rewrite Ha | rewrite Hm; eauto | rewrite Hh; eauto 10].
  destruct (resolve_user_cases (a_user a) msg w) as [(user & Hu & _) | Hu];
    rewrite Hu; [|eauto].
  destruct (resolve_body_cases (a_body a) (a_file a) w)
    as [(body & w2 & Hb & Hw) | (m & path & Hb)]; rewrite Hb; [|eauto 10].
  left. unfold body_read.
  destruct Hw as [-> | [-> | [path ->]]].
  - exists a, user, body, w, []. rewrite app_nil_r. eauto 10.
  - exists a, user, body, (log EvStdinRead w), [EvStdinRead]. eauto 10.
  - exists a, user, body, (log (EvOpen path) w), [EvOpen path]. eauto 10.
Qed.

Ltac since :=
  apply events_since_app; simpl;
  repeat match goal with H : trace _ = _ |- _ => rewrite H end;
  rewrite <- ?app_assoc; reflexivity.

Lemma ems_send_shape (c : EmsSend.cli) (w : world) :
  let r := run_script (EmsSend.main c) w in
  let out := events_since w r.2 in
  (∃ m, r.1 = 2 ∧ out = [EvUsage m])
  ∨ (EmsSend.argv c = Help ∧ r.1 = 0 ∧ out = [EvStdout [HelpText]])
  ∨ (∃ path m, r.1 = 1 ∧ out = [EvOpen path; EvTraceback (OSError m)])
  ∨ (∃ pre req t, body_read pre ∧ r.1 = 0
                  ∧ out = (pre ++ [EvHttp req; EvClose; EvStdout t])%list)
  ∨ (∃ pre req t, body_read pre ∧ r.1 = 1
                  ∧ out = (pre ++ [EvHttp req; EvStderr (Lit "Error: " :: t)])%list).
Proof.
  intros r out. subst r out. unfold run_script.
  destruct (prepare_with_shape (EmsSend.parse_args c) EmsSend.a_user
              "--user is required (or set JMS_USR environment variable)"
              EmsSend.a_body EmsSend.a_file w)
    as [(a & user & body & w2 & pre & Hp & Hpre & Htr & _)
       | [[m Hm] | [(m & path & Hm) | [Hh Hm]]]].
  - intros w0. destruct (ems_send_parse_args c w0) as [(a & Ha & _) | [Hm | [_ Hh]]]; eauto.
  - change (prepare_with _ _ _ _ _ w) with (EmsSend.prepare c w) in Hp.
    rewrite (ems_send_main _ _ _ _ _ _ Hp).
    match goal with |- context [send ?self ?sa w2] =>
      destruct (send_trace self sa w2) as [res Hr]; set (req := send_request self sa) in * end.
    rewrite Hr. destruct res as [result|e].
    + right. right. right. left. exists pre, req, [Lit (Client.body result)].
      split_and!; [done | done | since].
    + rewrite (send_raises _ _ _ _ _ Hr). right. right. right. right.
      exists pre, req, (error_text e). split_and!; [done | done | since].
  - change (prepare_with _ _ _ _ _ w) with (EmsSend.prepare c w) in Hm.
    unfold EmsSend.main, mbind, M_bind, bind. rewrite Hm. left. exists m.
    split; [done | since].
  - change (prepare_with _ _ _ _ _ w) with (EmsSend.prepare c w) in Hm.
    unfold EmsSend.main, mbind, M_bind, bind. rewrite Hm. right. right. left. exists path, m.
    split; [done | since].
  - change (prepare_with _ _ _ _ _ w) with (EmsSend.prepare c w) in Hm.
    unfold EmsSend.main, mbind, M_bind, bind. rewrite Hm. right. left.
    split_and!; [|done | since].
    destruct (ems_send_parse_args c w) as [(a & Ha & _) | [[m Ha] | [Hr _]]];
      [congruence | congruence | exact Hr].
Qed.


Lemma publish_shape (c : Publish.cli) (w : world) :
  let r := run_script (Publish.main c) w in
  let out := events_since w r.2 in
  (∃ m, r.1 = 2 ∧ out = [EvUsage m])
  ∨ (Publish.argv c = Help ∧ r.1 = 0 ∧ out = [EvStdout [HelpText]])
  ∨ (∃ path m, r.1 = 1 ∧ out = [EvOpen path; EvTraceback (OSError m)])
  ∨ (∃ pre req t, body_read pre ∧ r.1 = 0
                  ∧ out = (pre ++ [EvHttp req; EvClose; EvStdout t])%list)
  ∨ (∃ pre req t, body_read pre ∧ r.1 = 1
                  ∧ out = (pre ++ [EvHttp req; EvClose; EvStderr (Lit "Error: " :: t)])%list)
  ∨ (∃ pre req e, body_read pre ∧ r.1 = 1
                  ∧ out = (pre ++ [EvHttp req; EvClose; EvTraceback e])%list).
Proof.
  intros r out. subst r out. unfold run_script.
  destruct (prepare_with_shape (Publish.parse_args c) Publish.a_user
              "--user is required (or set JMS_USR)"
              Publish.a_body Publish.a_file w)
    as [(a & user & body & w2 & pre & Hp & Hpre & Htr & _)
       | [[m Hm] | [(m & path & Hm) | [Hh Hm]]]].
  - intros w0. destruct (publish_parse_args c w0) as [(a & Ha & _) | [Hm | [_ Hh]]]; eauto.
  - change (prepare_with _ _ _ _ _ w) with (Publish.prepare c w) in Hp.
    rewrite (publish_main _ _ _ _ _ _ Hp). unfold publish.
    match goal with |- context [send ?self ?sa w2] =>
      destruct (send_trace self sa w2) as [res Hr]; set (req := send_request self sa) in * end.
    rewrite Hr. destruct res as [result|e].
    + right. right. right. left. eexists pre, req, _. split_and!; [done | done | since].
    + apply send_raises in Hr.
      destruct e; try done;
        [ right; right; right; right; left; eexists pre, req, _
        | right; right; right; right; right; eexists pre, req, _ ..];
        (split_and!; [done | done | since]).
  - change (prepare_with _ _ _ _ _ w) with (Publish.prepare c w) in Hm.
    unfold Publish.main, mbind, M_bind, bind. rewrite Hm. left. exists m.
    split; [done | since].
  - change (prepare_with _ _ _ _ _ w) with (Publish.prepare c w) in Hm.
    unfold Publish.main, mbind, M_bind, bind. rewrite Hm. right. right. left. exists path, m.
    split; [done | since].
  - change (prepare_with _ _ _ _ _ w) with (Publish.prepare c w) in Hm.
    unfold Publish.main, mbind, M_bind, bind. rewrite Hm. right. left.
    split_and!; [|done | since].
    destruct (publish_parse_args c w) as [(a & Ha & _) | [[m Ha] | [Hr _]]];
      [congruence | congruence | exact Hr].
Qed.


Lemma request_reply_shape (c : RequestReply.cli) (w : world) :
  let r := run_script (RequestReply.main c) w in
  let out := events_since w r.2 in
  (∃ m, r.1 = 2 ∧ out = [EvUsage m])
  ∨ (RequestReply.argv c = Help ∧ r.1 = 0 ∧ out = [EvStdout [HelpText]])
  ∨ (∃ path m, r.1 = 1 ∧ out = [EvOpen path; EvTraceback (OSError m)])
  ∨ (∃ pre req t, body_read pre ∧ r.1 = 0
                  ∧ out = (pre ++ [EvHttp req; EvClose; EvStdout t])%list)
  ∨ (∃ pre req t, body_read pre ∧ r.1 = 1
                  ∧ out = (pre ++ [EvHttp req; EvClose; EvStderr (Lit "Error: " :: t)])%list)
  ∨ (∃ pre req e, body_read pre ∧ r.1 = 1
                  ∧ out = (pre ++ [EvHttp req; EvClose; EvTraceback e])%list).
Proof.
  intros r out. subst r out. unfold run_script.
  destruct (prepare_with_shape (RequestReply.parse_args c) RequestReply.a_user
              "--user is required (or set JMS_USR)"
              RequestReply.a_body RequestReply.a_file w)
    as [(a & user & body & w2 & pre & Hp & Hpre & Htr & _)
       | [[m Hm] | [(m & path & Hm) | [Hh Hm]]]].
  - intros w0. destruct (request_reply_parse_args c w0) as [(a & Ha & _) | [Hm | [_ Hh]]]; eauto.
  - change (prepare_with _ _ _ _ _ w) with (RequestReply.prepare c w) in Hp.
    rewrite (request_reply_main _ _ _ _ _ _ Hp). unfold request_reply.
    match goal with |- context [send ?self ?sa w2] =>
      destruct (send_trace self sa w2) as [res Hr]; set (req := send_request self sa) in * end.
    rewrite Hr. destruct res as [result|e].
    + right. right. right. left. eexists pre, req, _. split_and!; [done | done | since].
    + apply send_raises in Hr.
      destruct e; try done;
        [ right; right; right; right; left; eexists pre, req, _
        | right; right; right; right; right; eexists pre, req, _ ..];
        (split_and!; [done | done | since]).
  - change (prepare_with _ _ _ _ _ w) with (RequestReply.prepare c w) in Hm.
    unfold RequestReply.main, mbind, M_bind, bind. rewrite Hm. left. exists m.
    split; [done | since].
  - change (prepare_with _ _ _ _ _ w) with (RequestReply.prepare c w) in Hm.
    unfold RequestReply.main, mbind, M_bind, bind. rewrite Hm. right. right. left. exists path, m.
    split; [done | since].
  - change (prepare_with _ _ _ _ _ w) with (RequestReply.prepare c w) in Hm.
    unfold RequestReply.main, mbind, M_bind, bind. rewrite Hm. right. left.
    split_and!; [|done | since].
    destruct (request_reply_parse_args c w) as [(a & Ha & _) | [[m Ha] | [Hr _]]];
      [congruence | congruence | exact Hr].
Qed.


Lemma get_stats_parse_args_inv c w :
  GetStats.argv c = Accepted [] →
  GetStats.parse_args c w
  = (Return {| GetStats.a_bridge := bridge_url (GetStats.bridge c) w;
               GetStats.a_plain := GetStats.plain c |}, w).
Proof. intros Hr. unfold GetStats.parse_args. by rewrite Hr. Qed.

Lemma get_stats_py_stopped c w r out :
  parse_known (GetStats.argv c) [] w = (Raise (SystemExit r), log out w) →
  (run_script (GetStats.main c) w).1 = r
  ∧ events_since w (run_script (GetStats.main c) w).2 = [out].
Proof.
  intros H. unfold run_script, GetStats.main, GetStats.parse_args, default_bridge, getenv,
    mbind, M_bind, bind, mret, M_ret, ret. rewrite H. split; [done|].
  apply events_since_log.
Qed.

Lemma get_stats_py_shape (c : GetStats.cli) (w : world) :
  let r := run_script (GetStats.main c) w in
  let out := events_since w r.2 in
  let req := stats_request (init (bridge_url (GetStats.bridge c) w) (60 # 1)%Q)
               (negb (GetStats.plain c)) in
  match GetStats.argv c with
  | Help => r.1 = 0 ∧ out = [EvStdout [HelpText]]
  | Rejected msg => r.1 = 2 ∧ out = [EvUsage msg]
  | Accepted (x :: extras) =>
      r.1 = 2
      ∧ out = [EvUsage ("unrecognized arguments: " +:+ String.concat " " (x :: extras))]
  | Accepted [] =>
      req_url req = rstrip_slash (bridge_url (GetStats.bridge c) w) +:+ "/metrics"
      ∧ ∃ t, (r.1 = 0 ∧ out = [EvHttp req; EvClose; EvStdout t])
             ∨ (r.1 = 1 ∧ out = [EvHttp req; EvClose; EvStderr (Lit "Error: " :: t)])
  end.
Proof.
  intros r out req. subst r out req.
  destruct (GetStats.argv c) as [[|x extras]| |msg] eqn:Hr.
  - split; [done|]. unfold run_script.
    rewrite (get_stats_main c w _ (get_stats_parse_args_inv c w Hr)). simpl.
    destruct (get_stats _ _ w) as [[stats|e] w3] eqn:Hs.
    + pose proof Hs as Hs'. rewrite get_stats_effect in Hs'. injection Hs' as _ <-.
      eexists. left. split; [done|]. since.
    + rewrite (get_stats_raises _ _ _ _ _ Hs).
      pose proof Hs as Hs'. rewrite get_stats_effect in Hs'. injection Hs' as _ <-.
      eexists. right. split; [done|]. since.
  - apply get_stats_py_stopped. by rewrite Hr.
  - apply get_stats_py_stopped. by rewrite Hr.
  - apply get_stats_py_stopped. by rewrite Hr.
Qed.




(** ** Requests and sessions *)

Lemma requests_of_app t1 t2 : requests_of (t1 ++ t2) = (requests_of t1 ++ requests_of t2)%list.
Proof. apply omap_app. Qed.

Lemma closes_of_app t1 t2 : closes_of (t1 ++ t2) = (closes_of t1 + closes_of t2)%nat.
Proof. unfold closes_of. by rewrite List.filter_app, length_app. Qed.

Lemma body_read_quiet pre : body_read pre → requests_of pre = [] ∧ closes_of pre = 0%nat.
Proof. intros [-> | [-> | [path ->]]]; done. Qed.

Ltac count_effects :=
  repeat match goal with
    | H : body_read _ |- _ => apply body_read_quiet in H as [? ?]
    end;
  rewrite ?requests_of_app, ?closes_of_app;
  repeat match goal with H : requests_of _ = _ |- _ => rewrite H end;
  repeat match goal with H : closes_of _ = _ |- _ => rewrite H end;
  simpl.

(** X22.  No run of any of the four scripts makes more than one request,
    and a run that ends in a usage error (exit status 2) makes none.  A run
    of [get_stats.py] on a command line that [argparse] accepts makes
    exactly one and never ends with exit status 2. *)
Theorem one_request_per_run :
  (∀ c w, let r := run_script (EmsSend.main c) w in
          (length (requests_of (events_since w r.2)) ≤ 1)%nat
          ∧ (r.1 = 2 → requests_of (events_since w r.2) = []))
  ∧ (∀ c w, let r := run_script (Publish.main c) w in
            (length (requests_of (events_since w r.2)) ≤ 1)%nat
            ∧ (r.1 = 2 → requests_of (events_since w r.2) = []))
  ∧ (∀ c w, let r := run_script (RequestReply.main c) w in
            (length (requests_of (events_since w r.2)) ≤ 1)%nat
            ∧ (r.1 = 2 → requests_of (events_since w r.2) = []))
  ∧ (∀ c w, let r := run_script (GetStats.main c) w in
            (length (requests_of (events_since w r.2)) ≤ 1)%nat
            ∧ (r.1 = 2 → requests_of (events_since w r.2) = [])
            ∧ (GetStats.argv c = Accepted [] →
               length (requests_of (events_since w r.2)) = 1%nat ∧ r.1 ≠ 2)).
Proof.
  split_and!; intros c w r; subst r.
  - destruct (ems_send_shape c w)
      as [(m & Hc & ->) | [(_ & Hc & ->) | [(p & m & Hc & ->)
         | [(pre & req & t & Hpre & Hc & ->) | (pre & req & t & Hpre & Hc & ->)]]]];
      rewrite ?Hc; count_effects; (split; [lia | intros; try done; lia]).
  - destruct (publish_shape c w)
      as [(m & Hc & ->) | [(_ & Hc & ->) | [(p & m & Hc & ->)
         | [(pre & req & t & Hpre & Hc & ->)
         | [(pre & req & t & Hpre & Hc & ->) | (pre & req & e & Hpre & Hc & ->)]]]]];
      rewrite ?Hc; count_effects; (split; [lia | intros; try done; lia]).
  - destruct (request_reply_shape c w)
      as [(m & Hc & ->) | [(_ & Hc & ->) | [(p & m & Hc & ->)
         | [(pre & req & t & Hpre & Hc & ->)
         | [(pre & req & t & Hpre & Hc & ->) | (pre & req & e & Hpre & Hc & ->)]]]]];
      rewrite ?Hc; count_effects; (split; [lia | intros; try done; lia]).
  - pose proof (get_stats_py_shape c w) as H. simpl in H.
    destruct (GetStats.argv c) as [[|x extras]| |msg].
    + destruct H as (_ & t & [[Hc ->] | [Hc ->]]); rewrite Hc; simpl;
        (split_and!; [lia | done | intros _; split; [done | lia]]).
    + destruct H as [Hc ->]. simpl. split_and!; [lia | done | done].
    + destruct H as [Hc ->]. simpl. split_and!; [lia | done | done].
    + destruct H as [Hc ->]. simpl. split_and!; [lia | done | done].
Qed.

Lemma one_request_per_run_witness :
  let c := ems_send_cli None (Some "Hello") None None in
  let w := answering (response 200 "text/plain" "") in
  (run_script (EmsSend.main c) w).1 = 2
  ∧ requests_of (events_since w (run_script (EmsSend.main c) w).2) = []
  ∧ length (requests_of (events_since w (run_script (GetStats.main get_stats_cli) w).2)) = 1%nat.
Proof.
  intros c w.
  assert (H : (run_script (EmsSend.main c) w).1 = 2) by reflexivity.
  split_and!; [exact H | |].
  - exact (proj2 (proj1 one_request_per_run c w) H).
  - exact (proj1 (proj2 (proj2 (proj2 (proj2 (proj2 one_request_per_run)) get_stats_cli w))
                    eq_refl)).
Defined.


(** ** From the command line to the wire *)

Lemma given_resolve_password p : given (resolve_password p) = given (Some p).
Proof.
  unfold resolve_password, given. destruct (PyStr.truthy p) eqn:Hp; simpl; [|done].
  unfold PyStr.truthy in Hp. apply negb_true_iff in Hp. rewrite Hp. simpl.
  unfold PyStr.truthy. by rewrite Hp.
Qed.

Lemma ems_send_parse_args_inv c w a w' :
  EmsSend.parse_args c w = (Return a, w') →
  EmsSend.url c = Some (EmsSend.a_url a)
  ∧ EmsSend.queue c = Some (EmsSend.a_queue a)
  ∧ a = {| EmsSend.a_bridge := bridge_url (EmsSend.bridge c) w;
           EmsSend.a_url := EmsSend.a_url a;
           EmsSend.a_user := match EmsSend.user c with
                             | Some u => Some u
                             | None => environ w !! "JMS_USR"
                             end;
           EmsSend.a_password :=
             default (default "" (environ w !! "JMS_PSW")) (EmsSend.password c);
           EmsSend.a_queue := EmsSend.a_queue a;
           EmsSend.a_body := default "" (EmsSend.body c);
           EmsSend.a_file := EmsSend.file c;
           EmsSend.a_publish_only := EmsSend.publish_only c;
           EmsSend.a_reply_queue := EmsSend.reply_queue c;
           EmsSend.a_timeout := default 30000 (EmsSend.timeout c);
           EmsSend.a_correlation_id := EmsSend.correlation_id c;
           EmsSend.a_plain := EmsSend.plain c;
           EmsSend.a_timeout_sec := default (60 # 1)%Q (EmsSend.timeout_sec c) |}.
Proof.
  unfold EmsSend.parse_args, parse_known, default_bridge, default_password, check_required,
    parser_error, parser_help, getenv, mbind, M_bind, bind, mret, M_ret, ret.
  destruct (EmsSend.argv c) as [[|x extras]| |msg], (EmsSend.url c), (EmsSend.queue c);
    simpl; intros H; by simplify_eq.
Qed.

(** X24.  What [ems_send.py] puts on the wire once the arguments, the
    user and the body are resolved: a POST to the bridge URL ([--bridge],
    else HTTP_EMS_BRIDGE_URL, else the default, without trailing slashes)
    followed by one slash, with the resolved body and the HTTP timeout of
    [--timeout-sec] (60 by default).  The headers carry [--url], the user
    and [--queue]; the password ([--password], else JMS_PSW) only when it is
    not empty; with [--publish-only] the publish-only mark and neither reply
    queue nor timeout; without it the reply queue when given and always the
    timeout ([--timeout], 30000 by default, zero included); the correlation
    id when given; the JSON content type unless [--plain]; and nothing
    else. *)
Theorem ems_send_wire (c : EmsSend.cli) (w w2 : world) (a : EmsSend.args) (user body : string) :
  EmsSend.prepare c w = (Return (a, user, body), w2) →
  ∃ req h rest,
    events_since w2 (run_script (EmsSend.main c) w).2 = EvHttp req :: rest
    ∧ req_method req = "POST"
    ∧ req_url req = rstrip_slash (bridge_url (EmsSend.bridge c) w) +:+ "/"
    ∧ req_data req = Some body
    ∧ req_timeout req = default (60 # 1)%Q (EmsSend.timeout_sec c)
    ∧ req_headers req = Some h
    ∧ h !! "JMS-URL" = EmsSend.url c
    ∧ h !! "JMS-USR" = Some user
    ∧ h !! "JMS-QU1" = EmsSend.queue c
    ∧ h !! "JMS-PSW"
      = given (Some (default (default "" (environ w !! "JMS_PSW")) (EmsSend.password c)))
    ∧ h !! "JMS-PUBLISH-ONLY" = (if EmsSend.publish_only c then Some "YES" else None)
    ∧ h !! "JMS-QU2"
      = (if EmsSend.publish_only c then None else given (EmsSend.reply_queue c))
    ∧ h !! "JMS-TIMEOUT"
      = (if EmsSend.publish_only c then None
         else Some (pretty (default 30000 (EmsSend.timeout c))))
    ∧ h !! "JMS-CORRELATION-ID" = given (EmsSend.correlation_id c)
    ∧ h !! "Content-Type" = (if EmsSend.plain c then None else Some "application/json")
    ∧ h !! "Accept" = (if EmsSend.plain c then None else Some "application/json")
    ∧ (∀ k, k ∉ fixed_names → h !! k = None).
Proof.
  intros Hp.
  destruct (ems_send_prepare c w)
    as [(a' & user' & body' & w2' & Hp' & Ha & _) | [[m Hm] | [(m & path & Hm) | [_ Hm]]]];
    [|congruence..].
  rewrite Hp in Hp'. simplify_eq.
  destruct (ems_send_parse_args_inv c w _ _ Ha) as (Hurl & Hqueue & Hrec).
  set (sa := EmsSend.send_args a' user' body' (resolve_password (EmsSend.a_password a'))).
  set (self := init (EmsSend.a_bridge a') (EmsSend.a_timeout_sec a')).
  assert (Hrun : ∃ rest, events_since w2' (run_script (EmsSend.main c) w).2
                         = EvHttp (send_request self sa) :: rest).
  { unfold run_script. rewrite (ems_send_main _ _ _ _ _ _ Hp). fold sa self.
    destruct (send_trace self sa w2') as [res Hr]. rewrite Hr.
    destruct res as [result|e]; [|rewrite (send_raises _ _ _ _ _ Hr)];
      eexists; apply events_since_app; simpl; rewrite <- ?app_assoc; reflexivity. }
  destruct Hrun as [rest Hrun].
  pose proof (fixed_headers_lookups sa)
    as (H1 & H2 & H3 & H4 & H5 & H6 & H7 & H8 & H9 & H10 & H11).
  assert (Hh : send_headers sa = fixed_headers sa) by reflexivity.
  exists (send_request self sa), (send_headers sa), rest.
  rewrite Hh, Hurl, Hqueue. subst sa self. rewrite Hrec in *. simpl in *.
  rewrite given_resolve_password in H4.
  split_and!; try done.
  - by destruct (EmsSend.plain c).
  - by destruct (EmsSend.plain c).
Qed.

Lemma ems_send_wire_witness :
  let c := ems_send_cli (Some "admin") (Some "Hello") None (Some 0) in
  let w := answering (response 200 "text/plain" "") in
  ∃ a w2 req h rest,
    EmsSend.prepare c w = (Return (a, "admin", "Hello"), w2)
    ∧ events_since w2 (run_script (EmsSend.main c) w).2 = EvHttp req :: rest
    ∧ req_url req = "http://localhost:8080/"
    ∧ req_headers req = Some h
    ∧ h !! "JMS-TIMEOUT" = Some "0"
    ∧ h !! "JMS-PSW" = None.
Proof.
  intros c w.
  pose (a := {| EmsSend.a_bridge := "http://localhost:8080";
                EmsSend.a_url := "tcp://localhost:7222";
                EmsSend.a_user := Some "admin"; EmsSend.a_password := "";
                EmsSend.a_queue := "queue.test"; EmsSend.a_body := "Hello";
                EmsSend.a_file := None; EmsSend.a_publish_only := false;
                EmsSend.a_reply_queue := None; EmsSend.a_timeout := 0;
                EmsSend.a_correlation_id := None; EmsSend.a_plain := false;
                EmsSend.a_timeout_sec := (60 # 1)%Q |}).
  assert (Hp : EmsSend.prepare c w = (Return (a, "admin", "Hello"), w)) by reflexivity.
  destruct (ems_send_wire c w w a "admin" "Hello" Hp)
    as (req & h & rest & Hev & _ & Hurl & _ & _ & Hh & _ & _ & _ & Hpsw & _ & _ & Hto & _).
  exists a, w, req, h, rest.
  split_and!; [exact Hp | exact Hev | exact Hurl | exact Hh | exact Hto | exact Hpsw].
Defined.

Lemma publish_parse_args_inv c w a w' :
  Publish.parse_args c w = (Return a, w') →
  Publish.url c = Some (Publish.a_url a)
  ∧ Publish.queue c = Some (Publish.a_queue a)
  ∧ Publish.a_bridge a = bridge_url (Publish.bridge c) w
  ∧ Publish.a_password a
    = default (default "" (environ w !! "JMS_PSW")) (Publish.password c).
Proof.
  unfold Publish.parse_args, parse_known, default_bridge, default_password, check_required,
    parser_error, parser_help, getenv, mbind, M_bind, bind, mret, M_ret, ret.
  destruct (Publish.argv c) as [[|x extras]| |msg], (Publish.url c), (Publish.queue c);
    simpl; intros H; by simplify_eq.
Qed.

(** X25.  What [publish.py] puts on the wire once the arguments, the user
    and the body are resolved: a POST of the body to the bridge URL
    followed by one slash, with the HTTP timeout of 60 seconds, always
    marked publish-only and in JSON mode, with [--url], the user, [--queue]
    and the password when it is not empty, and with neither reply queue,
    timeout nor correlation id. *)
Theorem publish_wire (c : Publish.cli) (w w2 : world) (a : Publish.args) (user body : string) :
  Publish.prepare c w = (Return (a, user, body), w2) →
  ∃ req h rest,
    events_since w2 (run_script (Publish.main c) w).2 = EvHttp req :: rest
    ∧ req_method req = "POST"
    ∧ req_url req = rstrip_slash (bridge_url (Publish.bridge c) w) +:+ "/"
    ∧ req_data req = Some body
    ∧ req_timeout req = (60 # 1)%Q
    ∧ req_headers req = Some h
    ∧ h !! "JMS-URL" = Publish.url c
    ∧ h !! "JMS-USR" = Some user
    ∧ h !! "JMS-QU1" = Publish.queue c
    ∧ h !! "JMS-PSW"
      = given (Some (default (default "" (environ w !! "JMS_PSW")) (Publish.password c)))
    ∧ h !! "JMS-PUBLISH-ONLY" = Some "YES"
    ∧ h !! "JMS-QU2" = None
    ∧ h !! "JMS-TIMEOUT" = None
    ∧ h !! "JMS-CORRELATION-ID" = None
    ∧ h !! "Content-Type" = Some "application/json"
    ∧ h !! "Accept" = Some "application/json"
    ∧ (∀ k, k ∉ fixed_names → h !! k = None).
Proof.
  intros Hp.
  destruct (publish_prepare c w)
    as [(a' & user' & body' & w2' & Hp' & Ha & _) | [[m Hm] | [(m & path & Hm) | [_ Hm]]]];
    [|congruence..].
  rewrite Hp in Hp'. simplify_eq.
  destruct (publish_parse_args_inv c w _ _ Ha) as (Hurl & Hqueue & Hbridge & Hpsw).
  assert (Hrun : ∃ self sa rest,
            events_since w2' (run_script (Publish.main c) w).2
            = EvHttp (send_request self sa) :: rest
            ∧ self = init (Publish.a_bridge a') (60 # 1)%Q
            ∧ sa = {| jms_url := Publish.a_url a'; user := user'; queue := Publish.a_queue a';
                      data := body'; password := resolve_password (Publish.a_password a');
                      reply_queue := None; publish_only := true; timeout_ms := None;
                      correlation_id := None; headers := None; use_json := true |}).
  { unfold run_script. rewrite (publish_main _ _ _ _ _ _ Hp). unfold publish.
    match goal with |- context [send ?self ?sa w2'] =>
      destruct (send_trace self sa w2') as [res Hr]; exists self, sa end.
    rewrite Hr. destruct res as [result|e].
    - eexists. split; [|done]. apply events_since_app. simpl.
      rewrite <- ?app_assoc. reflexivity.
    - apply send_raises in Hr.
      destruct e; try done; eexists; (split; [|done]); apply events_since_app; simpl;
        rewrite <- ?app_assoc; reflexivity. }
  destruct Hrun as (self & sa & rest & Hrun & -> & ->).
  match type of Hrun with _ = EvHttp (send_request ?self ?sa) :: _ =>
    pose proof (fixed_headers_lookups sa)
      as (H1 & H2 & H3 & H4 & H5 & H6 & H7 & H8 & H9 & H10 & H11);
    exists (send_request self sa), (fixed_headers sa), rest
  end.
  simpl in *. rewrite Hpsw in *. rewrite given_resolve_password in H4.
  rewrite Hurl, Hqueue, <- Hbridge. unfold given in *.
  split_and!; done.
Qed.

Lemma publish_wire_witness :
  let c := publish_cli (Some "admin") (Some "Hello") None in
  let w := answering (response 200 "text/plain" "") in
  ∃ a req h rest,
    Publish.prepare c w = (Return (a, "admin", "Hello"), w)
    ∧ events_since w (run_script (Publish.main c) w).2 = EvHttp req :: rest
    ∧ req_headers req = Some h
    ∧ h !! "JMS-PUBLISH-ONLY" = Some "YES"
    ∧ h !! "JMS-TIMEOUT" = None.
Proof.
  intros c w.
  pose (a := {| Publish.a_bridge := "http://localhost:8080";
                Publish.a_url := "tcp://localhost:7222";
                Publish.a_user := Some "admin"; Publish.a_password := "";
                Publish.a_queue := "queue.test"; Publish.a_body := "Hello";
                Publish.a_file := None |}).
  assert (Hp : Publish.prepare c w = (Return (a, "admin", "Hello"), w)) by reflexivity.
  destruct (publish_wire c w w a "admin" "Hello" Hp)
    as (req & h & rest & Hev & _ & _ & _ & _ & Hh & _ & _ & _ & _ & Hpo & _ & Hto & _).
  exists a, req, h, rest.
  split_and!; [exact Hp | exact Hev | exact Hh | exact Hpo | exact Hto].
Defined.

Lemma request_reply_parse_args_inv c w a w' :
  RequestReply.parse_args c w = (Return a, w') →
  RequestReply.url c = Some (RequestReply.a_url a)
  ∧ RequestReply.queue c = Some (RequestReply.a_queue a)
  ∧ RequestReply.a_bridge a = bridge_url (RequestReply.bridge c) w
  ∧ RequestReply.a_password a
    = default (default "" (environ w !! "JMS_PSW")) (RequestReply.password c)
  ∧ RequestReply.a_reply_queue a = RequestReply.reply_queue c
  ∧ RequestReply.a_timeout a = default 30000 (RequestReply.timeout c).
Proof.
  unfold RequestReply.parse_args, parse_known, default_bridge, default_password,
    check_required, parser_error, parser_help, getenv, mbind, M_bind, bind, mret, M_ret, ret.
  destruct (RequestReply.argv c) as [[|x extras]| |msg], (RequestReply.url c),
    (RequestReply.queue c); simpl; intros H; by simplify_eq.
Qed.

(** X26.  What [request_reply.py] puts on the wire once the arguments,
    the user and the body are resolved: a POST of the body to the bridge
    URL followed by one slash, in JSON mode, never marked publish-only,
    with [--url], the user, [--queue], the password when it is not empty
    and the reply queue when given; the timeout header is always there,
    with [--timeout] when that is not zero and 30000 when it is zero or
    absent. *)
Theorem request_reply_wire (c : RequestReply.cli) (w w2 : world) (a : RequestReply.args)
    (user body : string) :
  RequestReply.prepare c w = (Return (a, user, body), w2) →
  ∃ req h rest,
    events_since w2 (run_script (RequestReply.main c) w).2 = EvHttp req :: rest
    ∧ req_method req = "POST"
    ∧ req_url req = rstrip_slash (bridge_url (RequestReply.bridge c) w) +:+ "/"
    ∧ req_data req = Some body
    ∧ req_headers req = Some h
    ∧ h !! "JMS-URL" = RequestReply.url c
    ∧ h !! "JMS-USR" = Some user
    ∧ h !! "JMS-QU1" = RequestReply.queue c
    ∧ h !! "JMS-PSW"
      = given (Some (default (default "" (environ w !! "JMS_PSW")) (RequestReply.password c)))
    ∧ h !! "JMS-PUBLISH-ONLY" = None
    ∧ h !! "JMS-QU2" = given (RequestReply.reply_queue c)
    ∧ h !! "JMS-TIMEOUT"
      = Some (pretty (match RequestReply.timeout c with
                      | Some t => if t =? 0 then 30000 else t
                      | None => 30000
                      end))
    ∧ h !! "JMS-CORRELATION-ID" = None
    ∧ h !! "Content-Type" = Some "application/json"
    ∧ h !! "Accept" = Some "application/json"
    ∧ (∀ k, k ∉ fixed_names → h !! k = None).
Proof.
  intros Hp.
  destruct (request_reply_prepare c w)
    as [(a' & user' & body' & w2' & Hp' & Ha & _) | [[m Hm] | [(m & path & Hm) | [_ Hm]]]];
    [|congruence..].
  rewrite Hp in Hp'. simplify_eq.
  destruct (request_reply_parse_args_inv c w _ _ Ha)
    as (Hurl & Hqueue & Hbridge & Hpsw & Hrq & Hto).
  assert (Hrun : ∃ self sa rest,
            events_since w2' (run_script (RequestReply.main c) w).2
            = EvHttp (send_request self sa) :: rest
            ∧ self = init (RequestReply.a_bridge a') (60 # 1)%Q
            ∧ sa = {| jms_url := RequestReply.a_url a'; user := user';
                      queue := RequestReply.a_queue a'; data := body';
                      password := resolve_password (RequestReply.a_password a');
                      reply_queue := RequestReply.a_reply_queue a'; publish_only := false;
                      timeout_ms := Some (timeout_or_default (Some (RequestReply.a_timeout a')));
                      correlation_id := None; headers := None; use_json := true |}).
  { unfold run_script. rewrite (request_reply_main _ _ _ _ _ _ Hp). unfold request_reply.
    match goal with |- context [send ?self ?sa w2'] =>
      destruct (send_trace self sa w2') as [res Hr]; exists self, sa end.
    rewrite Hr. destruct res as [result|e].
    - eexists. split; [|done]. apply events_since_app. simpl.
      rewrite <- ?app_assoc. reflexivity.
    - apply send_raises in Hr.
      destruct e; try done; eexists; (split; [|done]); apply events_since_app; simpl;
        rewrite <- ?app_assoc; reflexivity. }
  destruct Hrun as (self & sa & rest & Hrun & -> & ->).
  match type of Hrun with _ = EvHttp (send_request ?self ?sa) :: _ =>
    pose proof (fixed_headers_lookups sa)
      as (H1 & H2 & H3 & H4 & H5 & H6 & H7 & H8 & H9 & H10 & H11);
    exists (send_request self sa), (fixed_headers sa), rest
  end.
  simpl in *. rewrite Hpsw, Hrq, Hto in *. rewrite given_resolve_password in H4.
  rewrite Hurl, Hqueue, <- Hbridge. unfold given in *.
  split_and!; try done.
  rewrite H7. destruct (RequestReply.timeout c) as [t|]; simpl; [|done].
  by destruct (t =? 0).
Qed.

Lemma request_reply_wire_witness :
  let c := request_reply_cli (Some "admin") (Some "ping") None None in
  let w := answering (response 200 "text/plain" "pong") in
  ∃ a req h rest,
    RequestReply.prepare c w = (Return (a, "admin", "ping"), w)
    ∧ events_since w (run_script (RequestReply.main c) w).2 = EvHttp req :: rest
    ∧ req_headers req = Some h
    ∧ h !! "JMS-TIMEOUT" = Some "30000"
    ∧ h !! "JMS-PUBLISH-ONLY" = None.
Proof.
  intros c w.
  pose (a := {| RequestReply.a_bridge := "http://localhost:8080";
                RequestReply.a_url := "tcp://localhost:7222";
                RequestReply.a_user := Some "admin"; RequestReply.a_password := "";
                RequestReply.a_queue := "queue.req"; RequestReply.a_reply_queue := None;
                RequestReply.a_body := "ping"; RequestReply.a_file := None;
                RequestReply.a_timeout := 30000 |}).
  assert (Hp : RequestReply.prepare c w = (Return (a, "admin", "ping"), w)) by reflexivity.
  destruct (request_reply_wire c w w a "admin" "ping" Hp)
    as (req & h & rest & Hev & _ & _ & _ & Hh & _ & _ & _ & _ & Hpo & _ & Hto & _).
  exists a, req, h, rest.
  split_and!; [exact Hp | exact Hev | exact Hh | exact Hto | exact Hpo].
Defined.

(** ** What [publish.py] prints *)


